(** * ast_analysis.py: break / continue / return inside a finally suite

    A shallow embedding of [scripts/ast_analysis.py]: the [Visitor] class (an
    [ast.NodeVisitor] that keeps a stack of scope markers) and
    [Reporter.report], which parses one input, runs the visitor over the tree
    and counts the lines of the input.

    Modelling conventions.
    - A syntax tree is a [node]: its class name, its [lineno] attribute and
      its fields in [_fields] order.  [ast.NodeVisitor.visit] dispatches on
      the class name, so the class name is kept as a string.
    - Python objects are mutated in place; here every method is a function
      from the object before the call to an [outcome]: normal return or a
      raised exception, each with the object after the call.
    - [print] is modelled by appending to the [stdout] field.
    - The interpreter's recursion limit is not modelled: a traversal that
      the interpreter would leave with [RecursionError], on a tree nested
      too deep, runs to its end here.  What is stated of a call that returns
      is therefore stated under the hypothesis that it returns, or for every
      way the call can end. *)

From Stdlib Require Import List String Ascii ZArith Bool Lia Sorted.
From Stdlib.Strings Require Import Byte.
Import ListNotations.
Open Scope string_scope.
Open Scope list_scope.

(** ** Syntax trees *)

Module Ast.

(** A field holds a node, a list of nodes, or anything else (an identifier,
    a constant, [None]).  Items of a list field that are not nodes are
    skipped by [generic_visit] and are left out of [VList]. *)
Inductive node : Type :=
| Node (cls : string) (lineno : Z) (fields : list (string * value))
with value : Type :=
| VNode (n : node)
| VList (items : list node)
| VConst.

Definition cls (n : node) : string := match n with Node c _ _ => c end.
Definition lineno (n : node) : Z := match n with Node _ l _ => l end.
Definition fields (n : node) : list (string * value) :=
  match n with Node _ _ fs => fs end.

(** [getattr node name]: the value of the first field called [name]. *)
Fixpoint lookup (name : string) (fs : list (string * value)) : option value :=
  match fs with
  | [] => None
  | (k, v) :: fs' => if String.eqb k name then Some v else lookup name fs'
  end.

Definition getattr (n : node) (name : string) : option value :=
  lookup name (fields n).

(** The nodes one field contributes to [ast.iter_child_nodes]. *)
Definition value_nodes (v : value) : list node :=
  match v with
  | VNode c => [c]
  | VList l => l
  | VConst => []
  end.

(** All direct children, in field order. *)
Definition children (n : node) : list node :=
  flat_map (fun kv => value_nodes (snd kv)) (fields n).

End Ast.
Import Ast.

(** ** Exceptions and outcomes *)

Inductive exn : Type :=
| AssertionError
| IndexError
| AttributeError
| TypeError
| SyntaxError
| RecursionError
| OtherException.

(** The result of running a method on an object of type [S]. *)
Inductive outcome (S A : Type) : Type :=
| Done (a : A) (s : S)
| Raised (e : exn) (s : S).
Arguments Done {S A} a s.
Arguments Raised {S A} e s.

Definition M (S A : Type) : Type := S -> outcome S A.

Definition ret {S A} (a : A) : M S A := fun s => Done a s.
Definition raise {S A} (e : exn) : M S A := fun s => Raised e s.
Definition bind {S A B} (m : M S A) (k : A -> M S B) : M S B :=
  fun s => match m s with
           | Done a s' => k a s'
           | Raised e s' => Raised e s'
           end.

Declare Scope py_scope.
Delimit Scope py_scope with py.
Notation "m1 ;; m2" := (bind m1 (fun _ => m2))
  (at level 61, right associativity) : py_scope.
Open Scope py_scope.

(** [for c in l: f(c)] *)
Fixpoint for_each {S A} (f : A -> M S unit) (l : list A) : M S unit :=
  match l with
  | [] => ret tt
  | c :: l' => f c ;; for_each f l'
  end.

(** ** class Visitor *)

Module Visitor.

Definition FINALLY : string := "F".
Definition LOOP : string := "L".
Definition DEF : string := "D".

(** [[self.filename, self.source, node.lineno]] *)
Record Finding : Type := mkFinding {
  f_filename : string;
  f_source : list byte;
  f_lineno : Z
}.

Record t : Type := mk {
  source : list byte;
  filename : string;
  findings : list Finding;
  state : list string;
  stdout : list (string * Z)
}.

(** [Visitor(source, filename, findings)]; [out] is what has been printed
    so far. *)
Definition init (source : list byte) (filename : string)
    (findings : list Finding) (out : list (string * Z)) : t :=
  mk source filename findings [] out.

Definition set_state (st : list string) (self : t) : t :=
  mk (source self) (filename self) (findings self) st (stdout self).

(** [self.state.append(m)] *)
Definition state_append (m : string) : M t unit :=
  fun self => Done tt (set_state (state self ++ [m]) self).

(** [self.state.pop()] *)
Definition state_pop : M t unit :=
  fun self =>
    match state self with
    | [] => Raised IndexError self
    | _ :: _ => Done tt (set_state (removelast (state self)) self)
    end.

(** [self.findings.append([...]); print(self.filename, node.lineno)] *)
Definition record_finding (n : node) : M t unit :=
  fun self =>
    Done tt (mk (source self) (filename self)
               (findings self ++ [mkFinding (filename self) (source self) (lineno n)])
               (state self)
               (stdout self ++ [(filename self, lineno n)])).

(** The loop of [do_forbidden], counting [i] down from [len(self.state)]:
    the result is the local variable [state] after the loop. *)
Fixpoint scan (st : list string) (good_state : string) (i : nat)
    : exn + option string :=
  match i with
  | O => inr None
  | S j =>
      match nth_error st j with
      | None => inl IndexError
      | Some m =>
          if String.eqb m FINALLY || String.eqb m good_state
          then inr (Some m)
          else scan st good_state j
      end
  end.

(** [state == FINALLY], where [state] may be [None]. *)
Definition is_finally (s : option string) : bool :=
  match s with
  | Some m => String.eqb m FINALLY
  | None => false
  end.

Definition do_forbidden (n : node) (good_state : option string) : M t unit :=
  fun self =>
    match good_state with
    | None => Raised AssertionError self
    | Some good =>
        match state self with
        | [] => Done tt self
        | _ :: _ =>
            match scan (state self) good (List.length (state self)) with
            | inl e => Raised e self
            | inr s => if is_finally s then record_finding n self else Done tt self
            end
        end
    end.

Section Methods.

(** [self.visit], through which every method recurses. *)
Variable visit : node -> M t unit.

(** [ast.NodeVisitor.generic_visit], over the fields of the node. *)
Definition visit_value (v : value) : M t unit :=
  match v with
  | VNode c => visit c
  | VList l => for_each visit l
  | VConst => ret tt
  end.

Definition generic_fields (fs : list (string * value)) : M t unit :=
  for_each (fun kv => visit_value (snd kv)) fs.

Definition generic_visit (n : node) : M t unit := generic_fields (fields n).

(** [for n in node.<name>: self.visit(n)]: the attribute has to exist
    ([AttributeError] otherwise) and to be a list ([TypeError] otherwise). *)
Fixpoint visit_attr_in (name : string) (fs : list (string * value)) : M t unit :=
  match fs with
  | [] => raise AttributeError
  | (k, v) :: fs' =>
      if String.eqb k name then
        match v with
        | VList l => for_each visit l
        | _ => raise TypeError
        end
      else visit_attr_in name fs'
  end.

Definition visit_attr (name : string) (n : node) : M t unit :=
  visit_attr_in name (fields n).

Definition do_Try (n : node) : M t unit :=
  visit_attr "body" n ;;
  visit_attr "handlers" n ;;
  visit_attr "orelse" n ;;
  state_append FINALLY ;;
  visit_attr "finalbody" n ;;
  state_pop.

Definition do_Loop (n : node) : M t unit :=
  state_append LOOP ;;
  generic_visit n ;;
  state_pop.

Definition do_FunctionDef (n : node) : M t unit :=
  state_append DEF ;;
  generic_visit n ;;
  state_pop.

Definition visit_FunctionDef (n : node) : M t unit := do_FunctionDef n.
Definition visit_Try (n : node) : M t unit := do_Try n.
Definition visit_TryStar (n : node) : M t unit := do_Try n.
Definition visit_For (n : node) : M t unit := do_Loop n.
Definition visit_While (n : node) : M t unit := do_Loop n.
Definition visit_Break (n : node) : M t unit := do_forbidden n (Some LOOP).
Definition visit_Continue (n : node) : M t unit := do_forbidden n (Some LOOP).
Definition visit_Return (n : node) : M t unit := do_forbidden n (Some DEF).

(** [getattr(self, 'visit_' + node.__class__.__name__, self.generic_visit)]:
    the methods of the class whose name starts with [visit_].  The inherited
    [visit_Constant] ends in [generic_visit] for this class. *)
Definition visitor_method (method : string) : node -> M t unit :=
  if String.eqb method "visit_FunctionDef" then visit_FunctionDef
  else if String.eqb method "visit_Try" then visit_Try
  else if String.eqb method "visit_TryStar" then visit_TryStar
  else if String.eqb method "visit_For" then visit_For
  else if String.eqb method "visit_While" then visit_While
  else if String.eqb method "visit_Break" then visit_Break
  else if String.eqb method "visit_Continue" then visit_Continue
  else if String.eqb method "visit_Return" then visit_Return
  else generic_visit.

End Methods.

(** [ast.NodeVisitor.visit] *)
Fixpoint visit (n : node) : M t unit :=
  visitor_method visit ("visit_" ++ cls n)%string n.

(** The method that [visit] selects for a class, by kind. *)
Inductive kind : Type :=
| KFunctionDef
| KTry
| KLoop
| KForbidden (good_state : string)
| KOther.

Definition classify (c : string) : kind :=
  if String.eqb c "FunctionDef" then KFunctionDef
  else if String.eqb c "Try" then KTry
  else if String.eqb c "TryStar" then KTry
  else if String.eqb c "For" then KLoop
  else if String.eqb c "While" then KLoop
  else if String.eqb c "Break" then KForbidden LOOP
  else if String.eqb c "Continue" then KForbidden LOOP
  else if String.eqb c "Return" then KForbidden DEF
  else KOther.

End Visitor.

(** ** class Reporter *)

Module Reporter.

Record t : Type := mk {
  findings : list Visitor.Finding;
  lines : Z;
  stdout : list (string * Z)
}.

(** [Reporter()]; [out] is what has been printed so far. *)
Definition init (out : list (string * Z)) : t := mk [] 0 out.

(** [b'\n'] *)
Definition newline : byte := x0a.

(** [source.split(sep)] for a separator of one byte. *)
Fixpoint split (sep : byte) (s : list byte) : list (list byte) :=
  match s with
  | [] => [[]]
  | b :: s' =>
      if Byte.eqb b sep then [] :: split sep s'
      else match split sep s' with
           | cur :: rest => (b :: cur) :: rest
           | [] => [[b]]
           end
  end.

Section Report.

(** [ast.parse]: the tree, or the exception it raises. *)
Variable parse : list byte -> node + exn.

(** [Visitor(source, filename, self.findings)] shares the list
    [self.findings] with the reporter: what the visitor appends is appended
    to the reporter's list, also when the visit ends in an exception. *)
Definition report (source : list byte) (filename : string) (verbose : Z)
    : M t unit :=
  fun self =>
    match parse source with
    | inr SyntaxError => Done tt self
    | inr RecursionError => Done tt self
    | inr e => Raised e self
    | inl a =>
        match Visitor.visit a
                (Visitor.init source filename (findings self) (stdout self)) with
        | Raised e v =>
            Raised e (mk (Visitor.findings v) (lines self) (Visitor.stdout v))
        | Done _ v =>
            Done tt (mk (Visitor.findings v)
                       (lines self + Z.of_nat (List.length (split newline source)))
                       (Visitor.stdout v))
        end
    end.

End Report.

End Reporter.

(** ** Trees the parser can produce *)

Module Shape.

Definition is_try (c : string) : bool :=
  String.eqb c "Try" || String.eqb c "TryStar".

Section All.
(** A property of nodes, to hold of every node below a field. *)
Variable holds : node -> bool.

Definition all_value (v : value) : bool :=
  match v with
  | VNode c => holds c
  | VList l => forallb holds l
  | VConst => true
  end.

Definition all_fields (fs : list (string * value)) : bool :=
  forallb (fun kv => all_value (snd kv)) fs.

End All.

(** The fields of a [Try] or [TryStar] node as the parser stores them:
    [_fields = ('body', 'handlers', 'orelse', 'finalbody')], four lists. *)
Definition try_in_order (fs : list (string * value)) : bool :=
  match fs with
  | [(b, VList _); (h, VList _); (o, VList _); (f, VList _)] =>
      String.eqb b "body" && String.eqb h "handlers" &&
      String.eqb o "orelse" && String.eqb f "finalbody"
  | _ => false
  end.

(** Every [Try] and [TryStar] node of the tree has exactly these fields. *)
Fixpoint parsed (n : node) : bool :=
  (if is_try (cls n) then try_in_order (fields n) else true) &&
  all_fields parsed (fields n).

End Shape.

(** ** Lexical nesting *)

Module Lexical.
Import Visitor.

Definition is_forbidden (n : node) : bool :=
  match classify (cls n) with
  | KForbidden _ => true
  | _ => false
  end.

Section Nesting.
(** [nesting ctx n]: the nodes of [n] that the traversal reaches, each with
    the markers of the constructs around it, outermost first, [ctx] being
    the markers around [n] itself. *)
Variable nesting : list string -> node -> list (list string * node).

Definition nesting_list (ctx : list string) (l : list node)
    : list (list string * node) :=
  flat_map (nesting ctx) l.

Definition nesting_value (ctx : list string) (v : value)
    : list (list string * node) :=
  match v with
  | VNode c => nesting ctx c
  | VList l => nesting_list ctx l
  | VConst => []
  end.

Definition nesting_fields (ctx : list string) (fs : list (string * value))
    : list (list string * node) :=
  flat_map (fun kv => nesting_value ctx (snd kv)) fs.

Fixpoint nesting_attr (ctx : list string) (name : string)
    (fs : list (string * value)) : list (list string * node) :=
  match fs with
  | [] => []
  | (k, v) :: fs' =>
      if String.eqb k name then
        match v with
        | VList l => nesting_list ctx l
        | _ => []
        end
      else nesting_attr ctx name fs'
  end.

End Nesting.

Fixpoint nesting (ctx : list string) (n : node) {struct n}
    : list (list string * node) :=
  (ctx, n) ::
  match classify (cls n) with
  | KForbidden _ => []
  | KFunctionDef => nesting_fields nesting (ctx ++ [DEF]) (fields n)
  | KLoop => nesting_fields nesting (ctx ++ [LOOP]) (fields n)
  | KTry =>
      nesting_attr nesting ctx "body" (fields n) ++
      nesting_attr nesting ctx "handlers" (fields n) ++
      nesting_attr nesting ctx "orelse" (fields n) ++
      nesting_attr nesting (ctx ++ [FINALLY]) "finalbody" (fields n)
  | KOther => nesting_fields nesting ctx (fields n)
  end.

(** The innermost marker of [ctx] that is [FINALLY] or [good_state]. *)
Definition nearest (ctx : list string) (good_state : string) : option string :=
  find (fun m => String.eqb m FINALLY || String.eqb m good_state) (rev ctx).

(** A [break], [continue] or [return] whose nearest marker is [FINALLY]. *)
Definition violating (cn : list string * node) : bool :=
  match classify (cls (snd cn)) with
  | KForbidden good => is_finally (nearest (fst cn) good)
  | _ => false
  end.

(** The [break], [continue] and [return] statements of the tree, in
    traversal order, and the ones among them that violate. *)
Definition transfers (ctx : list string) (n : node) : list (list string * node) :=
  filter (fun cn => is_forbidden (snd cn)) (nesting ctx n).

Definition violations (ctx : list string) (n : node) : list (list string * node) :=
  filter violating (nesting ctx n).

Definition line_of (cn : list string * node) : Z := lineno (snd cn).

(** The visitor after it has recorded a finding at [n], and after it has
    recorded one at each statement of [vs] in turn. *)
Definition add_finding (self : t) (n : node) : t :=
  mk (source self) (filename self)
     (findings self ++ [mkFinding (filename self) (source self) (lineno n)])
     (state self)
     (stdout self ++ [(filename self, lineno n)]).

Definition add_findings (vs : list (list string * node)) (self : t) : t :=
  fold_left (fun s cn => add_finding s (snd cn)) vs self.

(** An outcome that agrees with the lexical reading: a normal return has
    recorded exactly the statements [vs]; the only exceptions that the
    methods raise themselves are those of a [Try] node without its suites. *)
Definition agrees (vs : list (list string * node)) (s : t)
    (o : outcome t unit) : Prop :=
  match o with
  | Done _ s' => s' = add_findings vs s
  | Raised e _ => e = AttributeError \/ e = TypeError
  end.

(** The same for a call that may have been left by an exception: it has
    then recorded the first statements of [vs], in this order, and no
    other. *)
Definition agrees_upto (vs : list (list string * node)) (s : t)
    (o : outcome t unit) : Prop :=
  match o with
  | Done _ s' => s' = add_findings vs s
  | Raised _ s' =>
      exists shown rest,
        vs = shown ++ rest /\
        findings s' = findings (add_findings shown s) /\
        stdout s' = stdout (add_findings shown s)
  end.

(** A call that returns normally. *)
Definition returns (o : outcome t unit) : Prop := exists s', o = Done tt s'.

End Lexical.

(** ** Textual order *)

Module Textual.

Section Lines.
Variable transfer_lines : node -> list Z.

Definition lines_value (v : value) : list Z :=
  match v with
  | VNode c => transfer_lines c
  | VList l => flat_map transfer_lines l
  | VConst => []
  end.

Definition lines_fields (fs : list (string * value)) : list Z :=
  flat_map (fun kv => lines_value (snd kv)) fs.

End Lines.

(** The line numbers of the [break], [continue] and [return] statements of
    a tree, read depth first with the fields of every node in the order in
    which the node stores them.  The parser stores the suites of a statement
    in the order of the text, so for a parsed tree this is the order of the
    statements in the source. *)
Fixpoint transfer_lines (n : node) : list Z :=
  if Lexical.is_forbidden n then [lineno n]
  else lines_fields transfer_lines (fields n).

End Textual.

(** ** Sample trees *)

Module Sample.

Definition name (ln : Z) : node :=
  Node "Name" ln [("id", VConst); ("ctx", VNode (Node "Load" 0 []))].
Definition pass (ln : Z) : node := Node "Pass" ln [].
Definition break (ln : Z) : node := Node "Break" ln [].
Definition continue (ln : Z) : node := Node "Continue" ln [].
Definition return_ (ln : Z) : node := Node "Return" ln [("value", VConst)].

Definition try (ln : Z) (body handlers orelse finalbody : list node) : node :=
  Node "Try" ln [("body", VList body); ("handlers", VList handlers);
                 ("orelse", VList orelse); ("finalbody", VList finalbody)].

Definition try_star (ln : Z) (body handlers orelse finalbody : list node) : node :=
  Node "TryStar" ln [("body", VList body); ("handlers", VList handlers);
                     ("orelse", VList orelse); ("finalbody", VList finalbody)].

Definition handler (ln : Z) (body : list node) : node :=
  Node "ExceptHandler" ln [("type", VConst); ("name", VConst); ("body", VList body)].

Definition for_ (ln : Z) (body orelse : list node) : node :=
  Node "For" ln [("target", VNode (name ln)); ("iter", VNode (name ln));
                 ("body", VList body); ("orelse", VList orelse);
                 ("type_comment", VConst)].

Definition async_for (ln : Z) (body orelse : list node) : node :=
  Node "AsyncFor" ln [("target", VNode (name ln)); ("iter", VNode (name ln));
                      ("body", VList body); ("orelse", VList orelse);
                      ("type_comment", VConst)].

Definition while (ln : Z) (body orelse : list node) : node :=
  Node "While" ln [("test", VNode (name ln)); ("body", VList body);
                   ("orelse", VList orelse)].

Definition def_fields (body : list node) : list (string * value) :=
  [("name", VConst); ("args", VNode (Node "arguments" 0 []));
   ("body", VList body); ("decorator_list", VList []);
   ("returns", VConst); ("type_comment", VConst)].

Definition def (ln : Z) (body : list node) : node :=
  Node "FunctionDef" ln (def_fields body).

Definition async_def (ln : Z) (body : list node) : node :=
  Node "AsyncFunctionDef" ln (def_fields body).

Definition module (body : list node) : node :=
  Node "Module" 0 [("body", VList body); ("type_ignores", VList [])].

(** [[
for x in y:          # 1
    try:             # 2
        pass         # 3
    except E:        # 4
        return       # 5
    finally:         # 6
        break        # 7
        for z in w:  # 8
            continue # 9
        def g():     # 10
            return   # 11
        return       # 12
]] *)
Definition sample : node :=
  module [for_ 1 [try 2 [pass 3] [handler 4 [return_ 5]] []
                      [break 7; for_ 8 [continue 9] []; def 10 [return_ 11];
                       return_ 12]] []].

Definition visitor0 : Visitor.t := Visitor.init [] "a.py" [] [].

(** A visitor in the middle of a traversal: inside a loop, inside a finally
    suite, inside a function. *)
Definition visitor_LFD : Visitor.t :=
  Visitor.mk [] "a.py" [] ["L"; "F"; "D"] [].

Definition visitor_DFL : Visitor.t :=
  Visitor.mk [] "a.py" [] ["D"; "F"; "L"] [].

(** The line numbers of the findings after [report] has run on an input
    that parses to [a], starting from a fresh reporter. *)
Definition findings_of (o : outcome Reporter.t unit) : option (list Z) :=
  match o with
  | Done _ r => Some (map Visitor.f_lineno (Reporter.findings r))
  | Raised _ _ => None
  end.

Definition run (a : node) : option (list Z) :=
  findings_of (Reporter.report (fun _ => inl a) [] "a.py" 1 (Reporter.init [])).

End Sample.

(** ** [Reporter.file_report], [Reporter.tarball_report]

    The rest of the class [Reporter] and the functions of the module read
    files and archives and print diagnostics.  The file system is a set of
    parameters (what reading a file gives, what an archive holds), and the
    lines printed are kept, in order, in [console]; every exception of
    [exn] is an instance of [Exception]. *)

Module Files.

(** What the program prints, one constructor per [print] of the source
    that can run. *)
Inductive line : Type :=
| Found (filename : string) (lineno : Z)
| Problem (name : string) (err : exn)
| Examining (filename : string)
| CannotOpen (filename : string)
| Usage
| TotalLines (lines : Z).

(** The reporter ([findings], [lines]) and the standard output. *)
Record t : Type := mk {
  findings : list Visitor.Finding;
  lines : Z;
  console : list line
}.

Definition print (l : line) : M t unit :=
  fun w => Done tt (mk (findings w) (lines w) (console w ++ [l])).

Definition found (p : string * Z) : line := Found (fst p) (snd p).

(** [name.endswith(suffix)] *)
Definition endswith (name suffix : string) : bool :=
  (String.length suffix <=? String.length name)%nat &&
  String.eqb (substring (String.length name - String.length suffix)
                        (String.length suffix) name)
             suffix.

(** An archive member as [tarball_report] meets it: its name and what
    [tar.extractfile(m).read()] gives for it in the archive it is in (for a
    link, the bytes of the member it points to). *)
Definition member : Type := string * (list byte + exn).

Section Files.

Variable parse : list byte -> node + exn.
(** [open(filename, "rb")] followed by [f.read()] *)
Variable read_file : string -> list byte + exn.
(** [tarfile.open(filename, "r")] followed by [tar.getmembers()] *)
Variable open_tar : string -> list member + exn.

(** [self.report(source, filename, verbose)], what it prints going to the
    console. *)
Definition report (source : list byte) (filename : string) (verbose : Z)
    : M t unit :=
  fun w =>
    match Reporter.report parse source filename verbose
            (Reporter.mk (findings w) (lines w) []) with
    | Done _ r =>
        Done tt (mk (Reporter.findings r) (Reporter.lines r)
                   (console w ++ map found (Reporter.stdout r)))
    | Raised e r =>
        Raised e (mk (Reporter.findings r) (Reporter.lines r)
                    (console w ++ map found (Reporter.stdout r)))
    end.

(** [except Exception as err: if verbose > 0: print(name + ":", err)] *)
Definition except_print (name : string) (verbose : Z) (err : exn) : M t unit :=
  if (0 <? verbose)%Z then print (Problem name err) else ret tt.

Definition file_report (filename : string) (verbose : Z) : M t unit :=
  fun w =>
    match read_file filename with
    | inr err => except_print filename verbose err w
    | inl source =>
        match report source filename verbose w with
        | Done _ w' => Done tt w'
        | Raised err w' => except_print filename verbose err w'
        end
    end.

(** The body of [for m in members]. *)
Definition tarball_member (verbose : Z) (m : member) : M t unit :=
  if endswith (fst m) ".py" then
    match snd m with
    | inr err => except_print (fst m) verbose err
    | inl source => report source (fst m) (verbose - 1)
    end
  else ret tt.

Definition tarball_report (filename : string) (verbose : Z) : M t unit :=
  (if (1 <? verbose)%Z then print (Examining filename) else ret tt) ;;
  fun w =>
    match open_tar filename with
    | inr err => Raised err w
    | inl members => for_each (tarball_member verbose) members w
    end.

End Files.

End Files.

(** ** [expand_globs], [main] *)

Module Main.
Import Files.

(** [c in name] for a string [c] of one character. *)
Fixpoint contains (c : ascii) (name : string) : bool :=
  match name with
  | EmptyString => false
  | String a rest => Ascii.eqb a c || contains c rest
  end.

(** How a run of [main] ends: it returns, or an exception leaves it. *)
Inductive stop : Type :=
| Uncaught (e : exn)
| NameError (name : string)
| SystemExit (code : Z).

Inductive ending : Type :=
| Completed (w : Files.t)
| Stopped (why : stop) (w : Files.t).

Section Main.

Variable parse : list byte -> node + exn.
Variable read_file : string -> list byte + exn.
Variable open_tar : string -> list member + exn.
(** [sys.platform == "win32"], [glob.glob], [os.path.isfile],
    [os.path.isdir], [os.walk], [os.path.join] *)
Variable win32 : bool.
Variable glob : string -> list string.
Variable isfile : string -> bool.
Variable isdir : string -> bool.
Variable walk : string -> list (string * list string * list string).
Variable join : string -> string -> string.

Definition expand_globs (filenames : list string) : list string :=
  flat_map (fun filename =>
              if contains "*" filename && win32 then glob filename
              else [filename])
           filenames.

(** [1 + args.verbose - args.quiet] *)
Definition verbosity (quiet verbose : bool) : Z :=
  1 + Z.b2z verbose - Z.b2z quiet.

(** [for root, dirs, files in os.walk(filename): for file in files: ...] *)
Definition walk_report (filename : string) (verbose : Z) : M Files.t unit :=
  for_each
    (fun entry : string * list string * list string =>
       for_each
         (fun file =>
            if endswith file ".py"
            then file_report parse read_file (join (fst (fst entry)) file) verbose
            else ret tt)
         (snd entry))
    (walk filename).

(** The body of [for filename in expand_globs(filenames)]. *)
Definition examine (verbose : Z) (filename : string) : M Files.t unit :=
  if isfile filename then
    if endswith filename ".tar.gz"
    then tarball_report parse open_tar filename verbose
    else file_report parse read_file filename verbose
  else if isdir filename then walk_report filename verbose
  else print (CannotOpen filename).

(** [main()] from the point where [argparser.parse_args()] has returned
    the arguments [quiet], [verbose] and [filenames], started with [out] on
    the console.  A run that [parse_args] itself ends ([-h], an unknown
    option) does not get here.  The name [OF_INTEREST_NAMES] is bound
    nowhere in the module.  [warnings.filterwarnings] prints nothing and is
    left out. *)
Definition main (quiet verbose : bool) (filenames : list string)
    (out : list line) : ending :=
  match filenames with
  | [] => Stopped (SystemExit 0) (Files.mk [] 0 (out ++ [Usage]))
  | _ :: _ =>
      if (2 <=? verbosity quiet verbose)%Z
      then Stopped (NameError "OF_INTEREST_NAMES") (Files.mk [] 0 out)
      else
        match for_each (examine (verbosity quiet verbose))
                       (expand_globs filenames) (Files.mk [] 0 out) with
        | Raised e w => Stopped (Uncaught e) w
        | Done _ w =>
            Completed (Files.mk (Files.findings w) (Files.lines w)
                         (Files.console w ++ [TotalLines (Files.lines w)]))
        end
  end.

End Main.

End Main.

(** ** Notions used to state what the traversal keeps *)

(** The object after a call, however the call ended. *)
Definition after {S A} (o : outcome S A) : S :=
  match o with
  | Done _ s => s
  | Raised _ s => s
  end.

(** [s'] is [s] with findings appended, each one printed: the findings at
    the lines [ns] for the file of the visitor were appended in this order,
    and as many lines printed. *)
Definition grown (s s' : Visitor.t) : Prop :=
  Visitor.source s' = Visitor.source s /\
  Visitor.filename s' = Visitor.filename s /\
  exists ns : list Z,
    Visitor.findings s' =
    Visitor.findings s ++
    map (Visitor.mkFinding (Visitor.filename s) (Visitor.source s)) ns /\
    Visitor.stdout s' = Visitor.stdout s ++ map (pair (Visitor.filename s)) ns.

Definition growing (m : M Visitor.t unit) : Prop :=
  forall s, grown s (after (m s)).

(** [r] is the reporter [self] after a call of [report] on [src] under the
    name [fname]: the findings at the lines [ns] were appended and as many
    lines printed, and the line count is unchanged or increased by the line
    count of [src]. *)
Definition reported (fname : string) (src : list byte) (self r : Reporter.t)
    : Prop :=
  exists ns : list Z,
    Reporter.findings r =
    Reporter.findings self ++ map (Visitor.mkFinding fname src) ns /\
    Reporter.stdout r = Reporter.stdout self ++ map (pair fname) ns /\
    (Reporter.lines r = Reporter.lines self \/
     Reporter.lines r =
     (Reporter.lines self +
      Z.of_nat (List.length (Reporter.split Reporter.newline src)))%Z).

(** [w'] is [w] with findings appended, lines printed and lines counted:
    nothing that was there is lost. *)
Definition extended (w w' : Files.t) : Prop :=
  (exists new, Files.findings w' = Files.findings w ++ new) /\
  (exists printed, Files.console w' = Files.console w ++ printed) /\
  (Files.lines w <= Files.lines w')%Z.

(** The members of an archive that [tarball_report] looks at. *)
Definition is_py (m : Files.member) : bool := Files.endswith (fst m) ".py".

(** The exceptions of [ast.parse] that [report] catches. *)
Definition caught (e : exn) : bool :=
  match e with
  | SyntaxError | RecursionError => true
  | _ => false
  end.

(** The lines a member adds to the count: those of its source when its name
    ends in [.py], it can be read and it parses, none otherwise. *)
Definition counted (parse : list byte -> node + exn) (m : Files.member) : Z :=
  if is_py m then
    match snd m with
    | inl source =>
        match parse source with
        | inl _ => Z.of_nat (List.length (Reporter.split Reporter.newline source))
        | inr _ => 0
        end
    | inr _ => 0
    end
  else 0.

(** A member that cannot stop the scan of an archive: it is not looked at,
    or cannot be read, or its source parses to a tree whose visit returns,
    or fails to parse with an exception that [report] catches. *)
Definition harmless (parse : list byte -> node + exn) (m : Files.member) : Prop :=
  is_py m = true ->
  forall source, snd m = inl source ->
    match parse source with
    | inl a =>
        forall found out,
          Lexical.returns
            (Visitor.visit a (Visitor.init source (fst m) found out))
    | inr e => caught e = true
    end.

(** The lines that are not diagnostics: a finding, a name that cannot be
    opened, the usage and the total. *)
Definition calm (l : Files.line) : bool :=
  match l with
  | Files.Problem _ _ | Files.Examining _ => false
  | _ => true
  end.

(** However the call ends, it has printed only calm lines, after the ones
    that were there. *)
Definition prints_calmly (m : M Files.t unit) : Prop :=
  forall w, exists printed,
    Files.console (after (m w)) = Files.console w ++ printed /\
    forallb calm printed = true.

(** The reporter and console when [main] ends. *)
Definition final (e : Main.ending) : Files.t :=
  match e with
  | Main.Completed w => w
  | Main.Stopped _ w => w
  end.

(** No [Try] and no [TryStar] node anywhere in the tree. *)
Fixpoint try_free (n : node) : bool :=
  negb (Shape.is_try (cls n)) && Shape.all_fields try_free (fields n).

(** [sep.join(pieces)] for a separator of one byte. *)
Fixpoint join (sep : byte) (pieces : list (list byte)) : list byte :=
  match pieces with
  | [] => []
  | [p] => p
  | p :: rest => p ++ sep :: join sep rest
  end.

(** * Properties *)

(** ** Trees: induction over the children of a node *)

Lemma in_children_node k c fs cl ln :
  In (k, VNode c) fs -> In c (children (Node cl ln fs)).
Proof.
  intros H. unfold children. simpl. apply in_flat_map.
  exists (k, VNode c). split; [exact H | simpl; auto].
Qed.

Lemma in_children_list k l c fs cl ln :
  In (k, VList l) fs -> In c l -> In c (children (Node cl ln fs)).
Proof.
  intros H Hc. unfold children. simpl. apply in_flat_map.
  exists (k, VList l). split; [exact H | exact Hc].
Qed.

Lemma node_children_ind (P : node -> Prop) :
  (forall n, (forall c, In c (children n) -> P c) -> P n) ->
  forall n, P n.
Proof.
  intros step. fix IH 1. intros [cl ln fs]. apply step.
  unfold children. simpl. induction fs as [|[k v] fs IHfs]; simpl.
  - intros c [].
  - intros c Hin. apply in_app_or in Hin. destruct Hin as [Hin|Hin].
    + destruct v as [d|l|]; simpl in Hin.
      * destruct Hin as [<-|[]]. apply IH.
      * induction l as [|d l IHl]; simpl in Hin.
        -- destruct Hin.
        -- destruct Hin as [<-|Hin]; [apply IH | apply IHl, Hin].
      * destruct Hin.
    + apply IHfs, Hin.
Qed.

Lemma lookup_in name fs v : lookup name fs = Some v -> exists k, In (k, v) fs.
Proof.
  induction fs as [|[k w] fs IH]; simpl; [discriminate|].
  destruct (String.eqb k name).
  - intros [= ->]. exists k. auto.
  - intros H. destruct (IH H) as [k' Hk]. exists k'. auto.
Qed.

Lemma getattr_list_children n name l c :
  getattr n name = Some (VList l) -> In c l -> In c (children n).
Proof.
  destruct n as [cl ln fs]. unfold getattr. simpl. intros H Hc.
  destruct (lookup_in _ _ _ H) as [k Hk].
  eapply in_children_list; eauto.
Qed.

(** ** The outcome monad *)

Lemma for_each_app {S A} (f : A -> M S unit) l1 l2 s :
  for_each f (l1 ++ l2) s = (for_each f l1 ;; for_each f l2) s.
Proof.
  revert s. induction l1 as [|a l1 IH]; intros s; simpl.
  - reflexivity.
  - unfold bind in *. destruct (f a s) as [[] s1|e s1]; [apply IH | reflexivity].
Qed.

Lemma for_each_flat_map {S A B} (f : B -> M S unit) (g : A -> list B) l s :
  for_each f (flat_map g l) s = for_each (fun a => for_each f (g a)) l s.
Proof.
  revert s. induction l as [|a l IH]; intros s; simpl; [reflexivity|].
  rewrite for_each_app. unfold bind.
  destruct (for_each f (g a) s) as [[] s1|e s1]; [apply IH | reflexivity].
Qed.

Lemma for_each_ext {S A} (f g : A -> M S unit) l :
  (forall a s, In a l -> f a s = g a s) ->
  forall s, for_each f l s = for_each g l s.
Proof.
  induction l as [|a l IH]; intros H s; simpl; [reflexivity|].
  unfold bind. rewrite (H a s (or_introl eq_refl)).
  destruct (g a s) as [[] s1|e s1]; [|reflexivity].
  apply IH. intros b s2 Hb. apply H. right. exact Hb.
Qed.

(** ** Dispatch *)

Import Visitor.

Lemma visit_unfold n :
  visit n = visitor_method visit ("visit_" ++ cls n)%string n.
Proof. destruct n; reflexivity. Qed.

Lemma method_name_eqb c d :
  String.eqb ("visit_" ++ c) ("visit_" ++ d) = String.eqb c d.
Proof. reflexivity. Qed.

Lemma visit_dispatch n :
  visit n =
  match classify (cls n) with
  | KFunctionDef => do_FunctionDef visit n
  | KTry => do_Try visit n
  | KLoop => do_Loop visit n
  | KForbidden good => do_forbidden n (Some good)
  | KOther => generic_visit visit n
  end.
Proof.
  rewrite visit_unfold. unfold visitor_method, classify.
  change "visit_FunctionDef" with ("visit_" ++ "FunctionDef")%string.
  change "visit_TryStar" with ("visit_" ++ "TryStar")%string.
  change "visit_Try" with ("visit_" ++ "Try")%string.
  change "visit_For" with ("visit_" ++ "For")%string.
  change "visit_While" with ("visit_" ++ "While")%string.
  change "visit_Break" with ("visit_" ++ "Break")%string.
  change "visit_Continue" with ("visit_" ++ "Continue")%string.
  change "visit_Return" with ("visit_" ++ "Return")%string.
  rewrite !method_name_eqb.
  repeat match goal with
         | |- context [String.eqb (cls n) ?c] => destruct (String.eqb (cls n) c)
         end; reflexivity.
Qed.

(** ** The scan of [do_forbidden] *)

Import Lexical.

Lemma firstn_snoc {A} (l : list A) j m :
  nth_error l j = Some m -> firstn (S j) l = firstn j l ++ [m].
Proof.
  revert j. induction l as [|a l IH]; intros [|j]; simpl; try discriminate.
  - intros [= ->]. reflexivity.
  - intros H. rewrite <- (IH j H). reflexivity.
Qed.

Lemma scan_firstn st good i :
  (i <= List.length st)%nat ->
  scan st good i = inr (nearest (firstn i st) good).
Proof.
  induction i as [|j IH]; intros Hi; cbn [scan].
  - reflexivity.
  - destruct (nth_error st j) as [m|] eqn:E.
    + unfold nearest. rewrite (firstn_snoc st j m E), rev_app_distr. simpl.
      destruct (String.eqb m FINALLY || String.eqb m good); [reflexivity|].
      apply IH. lia.
    + apply nth_error_None in E. lia.
Qed.

Lemma scan_nearest st good :
  scan st good (List.length st) = inr (nearest st good).
Proof. rewrite scan_firstn by lia. rewrite firstn_all. reflexivity. Qed.

Lemma do_forbidden_nearest n good self :
  do_forbidden n (Some good) self =
  if is_finally (nearest (state self) good)
  then record_finding n self else Done tt self.
Proof.
  unfold do_forbidden. destruct (state self) as [|m st] eqn:E.
  - reflexivity.
  - rewrite scan_nearest. reflexivity.
Qed.

Lemma nearest_app_skip pre post good :
  Forall (fun m => m <> FINALLY /\ m <> good) post ->
  nearest (pre ++ post) good = nearest pre good.
Proof.
  intros H. unfold nearest. rewrite rev_app_distr.
  apply Forall_rev in H. induction H as [|m l [H1 H2] _ IH]; simpl.
  - reflexivity.
  - apply String.eqb_neq in H1, H2. rewrite H1, H2. exact IH.
Qed.

Lemma nearest_snoc_match pre m good :
  m = FINALLY \/ m = good -> nearest (pre ++ [m]) good = Some m.
Proof.
  intros H. unfold nearest. rewrite rev_app_distr. simpl.
  destruct H as [->| ->]; rewrite String.eqb_refl; simpl;
    [reflexivity | rewrite orb_true_r; reflexivity].
Qed.

Lemma nearest_decompose pre m post good :
  m = FINALLY \/ m = good ->
  Forall (fun x => x <> FINALLY /\ x <> good) post ->
  nearest (pre ++ m :: post) good = Some m.
Proof.
  intros Hm Hpost.
  change (pre ++ m :: post) with (pre ++ [m] ++ post). rewrite app_assoc.
  rewrite nearest_app_skip by exact Hpost. apply nearest_snoc_match, Hm.
Qed.

(** ** Traversal in terms of children and attributes *)

Lemma bind_ret_unit {S} (m : M S unit) s : (m ;; ret tt) s = m s.
Proof. unfold bind, ret. destruct (m s) as [[] s1|e s1]; reflexivity. Qed.

Lemma visit_value_nodes v s :
  visit_value visit v s = for_each visit (value_nodes v) s.
Proof.
  destruct v as [c|l|]; simpl; try reflexivity.
  symmetry. apply bind_ret_unit.
Qed.

Lemma generic_visit_children n s :
  generic_visit visit n s = for_each visit (children n) s.
Proof.
  unfold generic_visit, generic_fields, children.
  rewrite for_each_flat_map. apply for_each_ext.
  intros [k v] s1 _. apply visit_value_nodes.
Qed.

Lemma visit_attr_getattr name n :
  visit_attr visit name n =
  match getattr n name with
  | Some (VList l) => for_each visit l
  | Some _ => raise TypeError
  | None => raise AttributeError
  end.
Proof.
  unfold visit_attr, getattr. induction (fields n) as [|[k v] fs IH]; simpl.
  - reflexivity.
  - destruct (String.eqb k name); [destruct v; reflexivity | exact IH].
Qed.

Lemma nesting_unfold ctx n :
  nesting ctx n =
  (ctx, n) ::
  match classify (cls n) with
  | KForbidden _ => []
  | KFunctionDef => flat_map (nesting (ctx ++ [DEF])) (children n)
  | KLoop => flat_map (nesting (ctx ++ [LOOP])) (children n)
  | KTry =>
      nesting_attr nesting ctx "body" (fields n) ++
      nesting_attr nesting ctx "handlers" (fields n) ++
      nesting_attr nesting ctx "orelse" (fields n) ++
      nesting_attr nesting (ctx ++ [FINALLY]) "finalbody" (fields n)
  | KOther => flat_map (nesting ctx) (children n)
  end.
Proof.
  assert (E : forall c fs, nesting_fields nesting c fs =
                           flat_map (nesting c) (flat_map (fun kv => value_nodes (snd kv)) fs)).
  { intros c fs. unfold nesting_fields. induction fs as [|[k v] fs IH]; simpl.
    - reflexivity.
    - rewrite flat_map_app, IH. f_equal.
      destruct v; simpl; unfold nesting_list; auto using app_nil_r. }
  destruct n as [cl ln fs]. cbn [nesting]. unfold children. cbn [fields cls].
  rewrite !E. reflexivity.
Qed.

Lemma nesting_attr_getattr ctx name n :
  nesting_attr nesting ctx name (fields n) =
  match getattr n name with
  | Some (VList l) => flat_map (nesting ctx) l
  | _ => []
  end.
Proof.
  unfold getattr. induction (fields n) as [|[k v] fs IH]; simpl.
  - reflexivity.
  - destruct (String.eqb k name); [destruct v; reflexivity | exact IH].
Qed.

(** ** The visitor agrees with the lexical reading *)

Lemma add_findings_app v1 v2 s :
  add_findings (v1 ++ v2) s = add_findings v2 (add_findings v1 s).
Proof. apply fold_left_app. Qed.

Lemma add_findings_state vs s : state (add_findings vs s) = state s.
Proof.
  revert s. induction vs as [|v vs IH]; intros s; simpl; [reflexivity|].
  unfold add_findings in IH. rewrite IH. reflexivity.
Qed.

Lemma add_findings_set_state vs st s :
  add_findings vs (set_state st s) = set_state st (add_findings vs s).
Proof.
  revert s. induction vs as [|v vs IH]; intros s; simpl; [reflexivity|].
  unfold add_findings in IH. rewrite <- IH. reflexivity.
Qed.

Lemma set_state_same s : set_state (state s) s = s.
Proof. destruct s; reflexivity. Qed.

Lemma set_state_twice st1 st2 s : set_state st2 (set_state st1 s) = set_state st2 s.
Proof. reflexivity. Qed.

Lemma agrees_bind m k v1 v2 s :
  agrees v1 s (m s) ->
  agrees v2 (add_findings v1 s) (k (add_findings v1 s)) ->
  agrees (v1 ++ v2) s ((m ;; k) s).
Proof.
  unfold bind. destruct (m s) as [[] s1|e s1]; simpl.
  - intros -> H. destruct (k (add_findings v1 s)) as [[] s2|e s2]; simpl in *.
    + rewrite add_findings_app. exact H.
    + exact H.
  - intros H _. exact H.
Qed.

Lemma agrees_for_each l :
  (forall c, In c l -> forall s, agrees (violations (state s) c) s (visit c s)) ->
  forall s,
    agrees (filter violating (flat_map (nesting (state s)) l)) s
           (for_each visit l s).
Proof.
  induction l as [|c l IH]; intros H s; cbn [for_each flat_map].
  - reflexivity.
  - rewrite filter_app. apply agrees_bind.
    + apply H. left. reflexivity.
    + rewrite <- (add_findings_state (violations (state s) c) s) at 1.
      apply IH. intros d Hd. apply H. right. exact Hd.
Qed.

Lemma agrees_wrap m body vs s :
  agrees vs (set_state (state s ++ [m]) s) (body (set_state (state s ++ [m]) s)) ->
  agrees vs s ((state_append m ;; body ;; state_pop) s).
Proof.
  unfold bind, state_append.
  destruct (body (set_state (state s ++ [m]) s)) as [[] s1|e s1]; simpl; [|auto].
  intros ->. unfold state_pop.
  rewrite add_findings_state. cbn [state set_state].
  destruct (state s ++ [m]) eqn:E.
  - destruct (state s); discriminate.
  - rewrite <- E, removelast_last, add_findings_set_state, set_state_twice.
    rewrite <- (add_findings_state vs s) at 1. rewrite set_state_same.
    reflexivity.
Qed.

Lemma agrees_attr name n ctx :
  (forall c, In c (children n) ->
             forall s, agrees (violations (state s) c) s (visit c s)) ->
  forall s, state s = ctx ->
    agrees (filter violating (nesting_attr nesting ctx name (fields n))) s
           (visit_attr visit name n s).
Proof.
  intros H s <-. rewrite visit_attr_getattr, nesting_attr_getattr.
  destruct (getattr n name) as [[c|l|]|] eqn:E; simpl; auto.
  apply agrees_for_each. intros c Hc. apply H.
  eapply getattr_list_children; eauto.
Qed.

Lemma visit_agrees n :
  forall s, agrees (violations (state s) n) s (visit n s).
Proof.
  induction n as [n IH] using node_children_ind. intros s.
  unfold violations. rewrite nesting_unfold, visit_dispatch. cbn [filter].
  unfold violating at 1. cbn [fst snd].
  destruct (classify (cls n)) as [| | |good|] eqn:K.
  - (* FunctionDef *)
    unfold do_FunctionDef. apply agrees_wrap.
    rewrite generic_visit_children.
    apply (agrees_for_each (children n) IH (set_state (state s ++ [DEF]) s)).
  - (* Try, TryStar *)
    unfold do_Try. rewrite !filter_app.
    apply agrees_bind; [apply agrees_attr; auto|].
    apply agrees_bind; [apply agrees_attr; auto using add_findings_state|].
    apply agrees_bind;
      [apply agrees_attr; auto; rewrite !add_findings_state; reflexivity|].
    rewrite <- (app_nil_r (filter violating (nesting_attr _ _ "finalbody" _))).
    match goal with |- agrees _ ?s0 _ => set (s3 := s0) end.
    assert (E3 : state s3 = state s)
      by (unfold s3; rewrite !add_findings_state; reflexivity).
    rewrite app_nil_r. rewrite <- E3.
    apply (agrees_wrap FINALLY (visit_attr visit "finalbody" n)).
    apply agrees_attr; auto.
  - (* For, While *)
    unfold do_Loop. apply agrees_wrap.
    rewrite generic_visit_children.
    apply (agrees_for_each (children n) IH (set_state (state s ++ [LOOP]) s)).
  - (* Break, Continue, Return *)
    rewrite do_forbidden_nearest.
    destruct (is_finally (nearest (state s) good)); reflexivity.
  - (* generic_visit *)
    rewrite generic_visit_children. apply agrees_for_each, IH.
Qed.

(** ** A visit that returns leaves the stack as it found it *)

Import Shape.

Lemma classify_try c : classify c = KTry <-> is_try c = true.
Proof.
  unfold classify, is_try.
  destruct (String.eqb_spec c "FunctionDef") as [->|_]; [simpl; split; discriminate|].
  destruct (String.eqb c "Try"); [simpl; tauto|].
  destruct (String.eqb c "TryStar"); [simpl; tauto|].
  simpl.
  repeat match goal with
         | |- context [if ?b then _ else _] => destruct b
         end; split; discriminate.
Qed.

Lemma done_state n s s' : visit n s = Done tt s' -> state s' = state s.
Proof.
  intros E. pose proof (visit_agrees n s) as H. rewrite E in H. simpl in H.
  rewrite H. apply add_findings_state.
Qed.

Lemma for_each_done_state l s s' :
  for_each visit l s = Done tt s' -> state s' = state s.
Proof.
  intros E.
  pose proof (agrees_for_each l (fun c _ => visit_agrees c) s) as H.
  rewrite E in H. simpl in H. rewrite H. apply add_findings_state.
Qed.

Lemma visit_attr_done_state name n s s' :
  visit_attr visit name n s = Done tt s' -> state s' = state s.
Proof.
  rewrite visit_attr_getattr.
  destruct (getattr n name) as [[c|l|]|]; try discriminate.
  apply for_each_done_state.
Qed.

(** ** A visit that an exception leaves has recorded a first part *)

Lemma upto_bind m k v1 v2 s :
  agrees_upto v1 s (m s) ->
  agrees_upto v2 (add_findings v1 s) (k (add_findings v1 s)) ->
  agrees_upto (v1 ++ v2) s ((m ;; k) s).
Proof.
  unfold bind. destruct (m s) as [[] s1|e s1]; simpl.
  - intros -> H. destruct (k (add_findings v1 s)) as [[] s2|e s2]; simpl in *.
    + rewrite add_findings_app. exact H.
    + destruct H as (shown & rest & -> & F & O).
      exists (v1 ++ shown), rest.
      rewrite app_assoc, add_findings_app. auto.
  - intros (shown & rest & -> & F & O) _.
    exists shown, (rest ++ v2). rewrite app_assoc. auto.
Qed.

Lemma upto_for_each l :
  (forall c, In c l -> forall s, agrees_upto (violations (state s) c) s (visit c s)) ->
  forall s,
    agrees_upto (filter violating (flat_map (nesting (state s)) l)) s
                (for_each visit l s).
Proof.
  induction l as [|c l IH]; intros H s; cbn [for_each flat_map].
  - reflexivity.
  - rewrite filter_app. apply upto_bind.
    + apply H. left. reflexivity.
    + rewrite <- (add_findings_state (violations (state s) c) s) at 1.
      apply IH. intros d Hd. apply H. right. exact Hd.
Qed.

Lemma upto_wrap m body vs s :
  agrees_upto vs (set_state (state s ++ [m]) s)
              (body (set_state (state s ++ [m]) s)) ->
  agrees_upto vs s ((state_append m ;; body ;; state_pop) s).
Proof.
  unfold bind, state_append.
  destruct (body (set_state (state s ++ [m]) s)) as [[] s1|e s1] eqn:E; simpl.
  - intros ->. unfold state_pop.
    rewrite add_findings_state. cbn [state set_state].
    destruct (state s ++ [m]) eqn:E'.
    + destruct (state s); discriminate.
    + rewrite <- E', removelast_last, add_findings_set_state, set_state_twice.
      rewrite <- (add_findings_state vs s) at 1. rewrite set_state_same.
      reflexivity.
  - intros (shown & rest & -> & F & O). exists shown, rest.
    rewrite add_findings_set_state in F, O. auto.
Qed.

Lemma upto_attr name n ctx :
  (forall c, In c (children n) ->
             forall s, agrees_upto (violations (state s) c) s (visit c s)) ->
  forall s, state s = ctx ->
    agrees_upto (filter violating (nesting_attr nesting ctx name (fields n))) s
                (visit_attr visit name n s).
Proof.
  intros H s <-. rewrite visit_attr_getattr, nesting_attr_getattr.
  destruct (getattr n name) as [[c|l|]|] eqn:E; simpl;
    try (exists [], []; simpl; auto).
  apply upto_for_each. intros c Hc. apply H.
  eapply getattr_list_children; eauto.
Qed.

Lemma visit_upto n :
  forall s, agrees_upto (violations (state s) n) s (visit n s).
Proof.
  induction n as [n IH] using node_children_ind. intros s.
  unfold violations. rewrite nesting_unfold, visit_dispatch. cbn [filter].
  unfold violating at 1. cbn [fst snd].
  destruct (classify (cls n)) as [| | |good|] eqn:K.
  - unfold do_FunctionDef. apply upto_wrap.
    rewrite generic_visit_children.
    apply (upto_for_each (children n) IH (set_state (state s ++ [DEF]) s)).
  - unfold do_Try. rewrite !filter_app.
    apply upto_bind; [apply upto_attr; auto|].
    apply upto_bind; [apply upto_attr; auto using add_findings_state|].
    apply upto_bind;
      [apply upto_attr; auto; rewrite !add_findings_state; reflexivity|].
    match goal with |- agrees_upto _ ?s0 _ => set (s3 := s0) end.
    assert (E3 : state s3 = state s)
      by (unfold s3; rewrite !add_findings_state; reflexivity).
    rewrite <- E3.
    apply (upto_wrap FINALLY (visit_attr visit "finalbody" n)).
    apply upto_attr; auto.
  - unfold do_Loop. apply upto_wrap.
    rewrite generic_visit_children.
    apply (upto_for_each (children n) IH (set_state (state s ++ [LOOP]) s)).
  - rewrite do_forbidden_nearest.
    destruct (is_finally (nearest (state s) good)); reflexivity.
  - rewrite generic_visit_children. apply upto_for_each, IH.
Qed.

(** ** Classification of [break], [continue] and [return] *)

Lemma classify_break_continue n :
  cls n = "Break" \/ cls n = "Continue" -> classify (cls n) = KForbidden LOOP.
Proof. intros [-> | ->]; reflexivity. Qed.

Lemma classify_return n : cls n = "Return" -> classify (cls n) = KForbidden DEF.
Proof. intros ->. reflexivity. Qed.

Lemma visit_forbidden n good self :
  classify (cls n) = KForbidden good ->
  visit n self =
  if is_finally (nearest (state self) good)
  then Done tt (add_finding self n) else Done tt self.
Proof.
  intros K. rewrite visit_dispatch, K, do_forbidden_nearest. reflexivity.
Qed.

(** C1: a [break] or [continue] statement is visited with the marker stack
    [pre ++ m :: post], where [m] is FINALLY or LOOP and no marker above it
    ([post], towards the top of the stack) is FINALLY or LOOP: each of them
    is DEF or, for that matter, anything else.  Then the scan from the top
    skips [post] and stops at [m]: if [m] is LOOP the visitor is left as it
    was, and if [m] is FINALLY exactly one finding, with the line number of
    the statement, is appended. *)
Theorem break_continue_nearest_marker n self pre m post :
  cls n = "Break" \/ cls n = "Continue" ->
  state self = pre ++ m :: post ->
  m = FINALLY \/ m = LOOP ->
  Forall (fun x => x = DEF \/ x <> FINALLY /\ x <> LOOP) post ->
  scan (state self) LOOP (List.length (state self)) = inr (Some m) /\
  (m = LOOP -> visit n self = Done tt self) /\
  (m = FINALLY ->
   visit n self = Done tt (add_finding self n) /\
   findings (add_finding self n) =
   findings self ++ [mkFinding (filename self) (source self) (lineno n)]).
Proof.
  intros Hc Hst Hm Hpost.
  assert (N : nearest (state self) LOOP = Some m).
  { rewrite Hst. apply nearest_decompose; [exact Hm|].
    eapply Forall_impl; [|exact Hpost].
    intros x [->|H]; [split; discriminate | exact H]. }
  rewrite scan_nearest, N.
  rewrite (visit_forbidden n LOOP self (classify_break_continue n Hc)), N.
  split; [reflexivity|]. split; intros ->; simpl; auto.
Qed.

Lemma break_continue_nearest_marker_witness :
  state Sample.visitor_LFD = ["L"] ++ "F" :: ["D"] /\
  visit (Sample.break 7) Sample.visitor_LFD =
  Done tt (add_finding Sample.visitor_LFD (Sample.break 7)) /\
  visit (Sample.continue 7) (set_state ["F"; "L"; "D"; "D"] Sample.visitor_LFD) =
  Done tt (set_state ["F"; "L"; "D"; "D"] Sample.visitor_LFD).
Proof.
  split; [reflexivity|]. split.
  - apply (break_continue_nearest_marker
             (Sample.break 7) Sample.visitor_LFD ["L"] "F" ["D"]).
    + left. reflexivity.
    + reflexivity.
    + left. reflexivity.
    + repeat constructor; left; reflexivity.
    + reflexivity.
  - apply (break_continue_nearest_marker
             (Sample.continue 7) (set_state ["F"; "L"; "D"; "D"] Sample.visitor_LFD)
             ["F"] "L" ["D"; "D"]).
    + right. reflexivity.
    + reflexivity.
    + right. reflexivity.
    + repeat constructor; left; reflexivity.
    + reflexivity.
Defined.

(** C2: a [return] statement is visited with the marker stack
    [pre ++ m :: post], where [m] is FINALLY or DEF and no marker above it
    is FINALLY or DEF: each of them is LOOP or, for that matter, anything
    else.  The same scan is run with DEF as the safe marker: the LOOP
    markers are skipped, a first match DEF leaves the visitor as it was, and
    a first match FINALLY appends one finding with the line number of the
    statement, however many loops lie between the statement and the finally
    suite. *)
Theorem return_nearest_marker n self pre m post :
  cls n = "Return" ->
  state self = pre ++ m :: post ->
  m = FINALLY \/ m = DEF ->
  Forall (fun x => x = LOOP \/ x <> FINALLY /\ x <> DEF) post ->
  scan (state self) DEF (List.length (state self)) = inr (Some m) /\
  (m = DEF -> visit n self = Done tt self) /\
  (m = FINALLY ->
   visit n self = Done tt (add_finding self n) /\
   findings (add_finding self n) =
   findings self ++ [mkFinding (filename self) (source self) (lineno n)]).
Proof.
  intros Hc Hst Hm Hpost.
  assert (N : nearest (state self) DEF = Some m).
  { rewrite Hst. apply nearest_decompose; [exact Hm|].
    eapply Forall_impl; [|exact Hpost].
    intros x [->|H]; [split; discriminate | exact H]. }
  rewrite scan_nearest, N.
  rewrite (visit_forbidden n DEF self (classify_return n Hc)), N.
  split; [reflexivity|]. split; intros ->; simpl; auto.
Qed.

Lemma return_nearest_marker_witness :
  state Sample.visitor_DFL = ["D"] ++ "F" :: ["L"] /\
  visit (Sample.return_ 9) Sample.visitor_DFL =
  Done tt (add_finding Sample.visitor_DFL (Sample.return_ 9)).
Proof.
  split; [reflexivity|].
  apply (return_nearest_marker
           (Sample.return_ 9) Sample.visitor_DFL ["D"] "F" ["L"]).
  - reflexivity.
  - reflexivity.
  - left. reflexivity.
  - repeat constructor; left; reflexivity.
  - reflexivity.
Defined.

(** C6: a [break], [continue] or [return] statement visited while the
    marker stack is empty: the call returns and the visitor (findings,
    stack, output) is exactly as before. *)
Theorem forbidden_on_empty_stack n self :
  cls n = "Break" \/ cls n = "Continue" \/ cls n = "Return" ->
  state self = [] ->
  visit n self = Done tt self.
Proof.
  intros Hc Hst.
  assert (K : exists good, classify (cls n) = KForbidden good).
  { destruct Hc as [-> | [-> | ->]]; eexists; reflexivity. }
  destruct K as [good K].
  rewrite (visit_forbidden n good self K), Hst. reflexivity.
Qed.

Lemma forbidden_on_empty_stack_witness :
  state Sample.visitor0 = [] /\
  visit (Sample.break 1) Sample.visitor0 = Done tt Sample.visitor0 /\
  visit (Sample.continue 1) Sample.visitor0 = Done tt Sample.visitor0 /\
  visit (Sample.return_ 1) Sample.visitor0 = Done tt Sample.visitor0.
Proof.
  split; [reflexivity|]. split; [|split].
  - apply forbidden_on_empty_stack; [left; reflexivity | reflexivity].
  - apply forbidden_on_empty_stack; [right; left; reflexivity | reflexivity].
  - apply forbidden_on_empty_stack; [right; right; reflexivity | reflexivity].
Defined.

(** C9: a [break] or [continue] (safe marker LOOP) or a [return] (safe
    marker DEF) visited with a non-empty marker stack that holds neither
    FINALLY nor the safe marker: the scan runs through the whole stack and
    finds no entry, and the visitor is left exactly as it was. *)
Theorem forbidden_without_match n good self :
  (cls n = "Break" \/ cls n = "Continue") /\ good = LOOP \/
  cls n = "Return" /\ good = DEF ->
  state self <> [] ->
  Forall (fun m => m <> FINALLY /\ m <> good) (state self) ->
  scan (state self) good (List.length (state self)) = inr None /\
  visit n self = Done tt self.
Proof.
  intros Hc _ Hall.
  assert (K : classify (cls n) = KForbidden good).
  { destruct Hc as [[Hc ->] | [Hc ->]];
      [apply classify_break_continue | apply classify_return]; exact Hc. }
  assert (N : nearest (state self) good = None).
  { rewrite <- (app_nil_l (state self)).
    rewrite nearest_app_skip by exact Hall. reflexivity. }
  rewrite scan_nearest, (visit_forbidden n good self K), N.
  split; reflexivity.
Qed.

Lemma forbidden_without_match_witness :
  visit (Sample.break 4) (set_state ["D"; "D"] Sample.visitor0) =
  Done tt (set_state ["D"; "D"] Sample.visitor0) /\
  visit (Sample.return_ 4) (set_state ["L"] Sample.visitor0) =
  Done tt (set_state ["L"] Sample.visitor0).
Proof.
  split.
  - apply (forbidden_without_match (Sample.break 4) LOOP).
    + left. split; [left|]; reflexivity.
    + discriminate.
    + repeat constructor; discriminate.
  - apply (forbidden_without_match (Sample.return_ 4) DEF).
    + right. split; reflexivity.
    + discriminate.
    + repeat constructor; discriminate.
Defined.

(** C10: the three call sites of [do_forbidden] pass a safe marker (LOOP
    for [break] and [continue], DEF for [return]); [do_forbidden] fails its
    assertion only when it is given [None]; and no call of [visit], on any
    tree and from any state, ends in [AssertionError]. *)
Theorem assertion_never_fails :
  (forall n, visit_Break n = do_forbidden n (Some LOOP)) /\
  (forall n, visit_Continue n = do_forbidden n (Some LOOP)) /\
  (forall n, visit_Return n = do_forbidden n (Some DEF)) /\
  (forall n good self self',
      do_forbidden n good self = Raised AssertionError self' -> good = None) /\
  (forall n self self', visit n self <> Raised AssertionError self').
Proof.
  split; [reflexivity|]. split; [reflexivity|]. split; [reflexivity|]. split.
  - intros n [good|] self self' H; [|reflexivity].
    rewrite do_forbidden_nearest in H.
    destruct (is_finally (nearest (state self) good)); discriminate.
  - intros n self self' E. pose proof (visit_agrees n self) as H.
    rewrite E in H. destruct H; discriminate.
Qed.

Lemma assertion_never_fails_witness :
  do_forbidden (Sample.break 1) None Sample.visitor0 =
  Raised AssertionError Sample.visitor0 /\
  visit Sample.sample Sample.visitor0 <> Raised AssertionError Sample.visitor0.
Proof.
  split; [reflexivity|].
  apply (proj2 (proj2 (proj2 (proj2 assertion_never_fails)))).
Defined.

(** ** [do_Try] *)

Lemma state_pop_snoc st m s :
  state s = st ++ [m] -> state_pop s = Done tt (set_state st s).
Proof.
  intros E. unfold state_pop. rewrite E.
  destruct (st ++ [m]) eqn:E'.
  - destruct st; discriminate.
  - rewrite <- E', removelast_last. reflexivity.
Qed.

(** C3: a [Try] or [TryStar] node with suites [body], [handlers], [orelse]
    and [finalbody] is visited from state [s], and the traversals of its
    four suites return.  The three first suites are traversed in this
    order, each entered with the marker stack of [s], no marker pushed;
    then FINALLY is pushed, [finalbody] is traversed, entered with the stack
    of [s] followed by FINALLY, and the marker is popped: the call returns
    with the stack of [s].  A [TryStar] node is visited exactly as the [Try]
    node with the same fields. *)
Theorem try_marker_around_finalbody n body handlers orelse finalbody
    s s1 s2 s3 s4 :
  cls n = "Try" \/ cls n = "TryStar" ->
  getattr n "body" = Some (VList body) ->
  getattr n "handlers" = Some (VList handlers) ->
  getattr n "orelse" = Some (VList orelse) ->
  getattr n "finalbody" = Some (VList finalbody) ->
  for_each visit body s = Done tt s1 ->
  for_each visit handlers s1 = Done tt s2 ->
  for_each visit orelse s2 = Done tt s3 ->
  for_each visit finalbody (set_state (state s3 ++ [FINALLY]) s3) = Done tt s4 ->
  state s1 = state s /\ state s2 = state s /\ state s3 = state s /\
  state s4 = state s ++ [FINALLY] /\
  visit n s = Done tt (set_state (state s) s4) /\
  visit (Node "TryStar" (lineno n) (fields n)) s =
  visit (Node "Try" (lineno n) (fields n)) s.
Proof.
  intros Hc Hb Hh Ho Hf E1 E2 E3 E4.
  pose proof (for_each_done_state _ _ _ E1) as S1.
  pose proof (for_each_done_state _ _ _ E2) as S2.
  pose proof (for_each_done_state _ _ _ E3) as S3.
  pose proof (for_each_done_state _ _ _ E4) as S4.
  rewrite S1 in S2. rewrite S2 in S3. cbn [state set_state] in S4.
  rewrite S3 in S4.
  repeat (split; [assumption|]). split.
  - assert (K : classify (cls n) = KTry) by (destruct Hc as [-> | ->]; reflexivity).
    rewrite visit_dispatch, K. unfold do_Try, bind.
    rewrite !visit_attr_getattr, Hb, Hh, Ho, Hf, E1, E2, E3.
    unfold state_append. rewrite E4.
    apply (state_pop_snoc (state s) FINALLY s4 S4).
  - rewrite !visit_dispatch. reflexivity.
Qed.

Lemma try_marker_around_finalbody_witness :
  visit (Sample.try_star 2 [Sample.break 3] [Sample.handler 4 [Sample.break 5]]
           [Sample.break 6] [Sample.break 8])
        (set_state ["L"] Sample.visitor0) =
  Done tt (set_state ["L"]
             (add_finding (set_state ["L"; "F"] Sample.visitor0)
                          (Sample.break 8))).
Proof.
  apply (try_marker_around_finalbody
           (Sample.try_star 2 [Sample.break 3] [Sample.handler 4 [Sample.break 5]]
              [Sample.break 6] [Sample.break 8])
           [Sample.break 3] [Sample.handler 4 [Sample.break 5]]
           [Sample.break 6] [Sample.break 8]
           (set_state ["L"] Sample.visitor0)
           (set_state ["L"] Sample.visitor0)
           (set_state ["L"] Sample.visitor0)
           (set_state ["L"] Sample.visitor0)
           (add_finding (set_state ["L"; "F"] Sample.visitor0) (Sample.break 8)));
    try reflexivity.
  right. reflexivity.
Defined.

(** ** Functions, loops and the marker stack *)

(** C4: the class has a method for [FunctionDef], [For] and [While] and for
    no other node with a function or loop body, and it keeps the LOOP marker
    over every field of a loop.  So the stack does not mirror the constructs
    around a statement in these inputs:
    - a [return] in an [async def] inside a finally suite is visited without
      a FUNCTION marker above FINALLY and is recorded (line 6), where the
      same [return] in a [def] is not;
    - a [break] in an [async for] inside a finally suite is visited without
      a LOOP marker above FINALLY and is recorded (line 6), where the same
      [break] in a [for] is not;
    - a [break] in the [else] clause of a [for] inside a finally suite, which
      leaves the loop around the [try], is visited with the LOOP marker of
      the [for] it is not in the body of and is not recorded, where the same
      [break] put directly in the finally suite is (line 5). *)
Theorem untracked_bodies_and_else_clause :
  Sample.run (Sample.module
    [Sample.def 1 [Sample.try 2 [Sample.pass 3] [] []
                     [Sample.async_def 5 [Sample.return_ 6]]]]) = Some [6%Z] /\
  Sample.run (Sample.module
    [Sample.def 1 [Sample.try 2 [Sample.pass 3] [] []
                     [Sample.def 5 [Sample.return_ 6]]]]) = Some [] /\
  Sample.run (Sample.module
    [Sample.async_def 1 [Sample.try 2 [Sample.pass 3] [] []
                           [Sample.async_for 5 [Sample.break 6] []]]]) = Some [6%Z] /\
  Sample.run (Sample.module
    [Sample.async_def 1 [Sample.try 2 [Sample.pass 3] [] []
                           [Sample.for_ 5 [Sample.break 6] []]]]) = Some [] /\
  Sample.run (Sample.module
    [Sample.for_ 1 [Sample.try 2 [Sample.pass 3] [] []
                      [Sample.for_ 5 [Sample.pass 6] [Sample.break 8]]] []]) = Some [] /\
  Sample.run (Sample.module
    [Sample.for_ 1 [Sample.try 2 [Sample.pass 3] [] []
                      [Sample.break 5]] []]) = Some [5%Z].
Proof. repeat split. Qed.

(** ** [Reporter.report] *)

Lemma add_findings_fields vs s :
  source (add_findings vs s) = source s /\
  filename (add_findings vs s) = filename s /\
  findings (add_findings vs s) =
  findings s ++
  map (fun cn => mkFinding (filename s) (source s) (lineno (snd cn))) vs /\
  stdout (add_findings vs s) =
  stdout s ++ map (fun cn => (filename s, lineno (snd cn))) vs.
Proof.
  revert s. induction vs as [|v vs IH]; intros s; cbn [add_findings fold_left map].
  - rewrite !app_nil_r. auto.
  - destruct (IH (add_finding s (snd v))) as (E1 & E2 & E3 & E4).
    unfold add_findings in *. rewrite E1, E2, E3, E4. cbn.
    rewrite <- !app_assoc. auto.
Qed.

Lemma violating_forbidden cn : violating cn = true -> is_forbidden (snd cn) = true.
Proof.
  unfold violating, is_forbidden.
  destruct (classify (cls (snd cn))); auto; discriminate.
Qed.

Lemma filter_filter_impl {A} (p q : A -> bool) l :
  (forall a, p a = true -> q a = true) ->
  filter p l = filter p (filter q l).
Proof.
  intros H. induction l as [|a l IH]; simpl; [reflexivity|].
  destruct (p a) eqn:P.
  - rewrite (H a P). simpl. rewrite P, IH. reflexivity.
  - destruct (q a); simpl; [rewrite P|]; exact IH.
Qed.

Lemma strongly_sorted_map_filter {A} (f : A -> Z) (p : A -> bool) l :
  StronglySorted Z.le (map f l) -> StronglySorted Z.le (map f (filter p l)).
Proof.
  induction l as [|a l IH]; simpl; intros H; [constructor|].
  inversion H as [|x xs Hs Hall]; subst.
  destruct (p a); simpl; [|auto].
  constructor; [auto|].
  rewrite Forall_forall in *. intros z Hz. apply Hall.
  rewrite in_map_iff in *. destruct Hz as (b & <- & Hb).
  exists b. split; [reflexivity|]. apply filter_In in Hb. tauto.
Qed.

Lemma violations_sorted ctx n :
  Sorted Z.le (map (fun cn => lineno (snd cn)) (transfers ctx n)) ->
  Sorted Z.le (map (fun cn => lineno (snd cn)) (violations ctx n)).
Proof.
  intros H. apply StronglySorted_Sorted.
  unfold violations, transfers in *.
  rewrite (filter_filter_impl violating (fun cn => is_forbidden (snd cn)))
    by apply violating_forbidden.
  apply strongly_sorted_map_filter.
  apply Sorted_StronglySorted; [|exact H].
  intros x y z. apply Z.le_trans.
Qed.

Lemma transfer_lines_unfold n :
  Textual.transfer_lines n =
  if is_forbidden n then [lineno n]
  else flat_map Textual.transfer_lines (children n).
Proof.
  destruct n as [cl ln fs]. cbn [Textual.transfer_lines].
  destruct (is_forbidden (Node cl ln fs)); [reflexivity|].
  unfold Textual.lines_fields, children. cbn [fields].
  induction fs as [|[k v] fs IH]; simpl; [reflexivity|].
  rewrite flat_map_app, IH. f_equal.
  destruct v; simpl; auto using app_nil_r.
Qed.

Lemma parsed_unfold n :
  parsed n =
  (if is_try (cls n) then try_in_order (fields n) else true) &&
  forallb parsed (children n).
Proof.
  destruct n as [cl ln fs]. cbn [parsed]. f_equal.
  unfold all_fields, children. cbn [fields].
  induction fs as [|[k v] fs IH]; simpl; [reflexivity|].
  rewrite forallb_app, IH. f_equal.
  destruct v; simpl; auto using andb_true_r.
Qed.

Lemma parsed_children n c :
  parsed n = true -> In c (children n) -> parsed c = true.
Proof.
  rewrite parsed_unfold. intros H Hc.
  apply andb_true_iff in H. destruct H as [_ H].
  rewrite forallb_forall in H. apply H, Hc.
Qed.

Lemma try_in_order_inv fs :
  try_in_order fs = true ->
  exists lb lh lo lf,
    fs = [("body", VList lb); ("handlers", VList lh);
          ("orelse", VList lo); ("finalbody", VList lf)].
Proof.
  destruct fs as [|[b [|lb|]] [|[h [|lh|]] [|[o [|lo|]] [|[f [|lf|]] [|]]]]];
    try discriminate.
  cbn [try_in_order]. intros H.
  repeat (apply andb_true_iff in H; destruct H as [H ?]).
  repeat match goal with
         | E : String.eqb _ _ = true |- _ => apply String.eqb_eq in E; subst
         end.
  exists lb, lh, lo, lf. reflexivity.
Qed.

Lemma transfers_flat_map ctx l :
  (forall c, In c l ->
             forall ctx', map line_of (transfers ctx' c) = Textual.transfer_lines c) ->
  map line_of (filter (fun cn => is_forbidden (snd cn)) (flat_map (nesting ctx) l)) =
  flat_map Textual.transfer_lines l.
Proof.
  induction l as [|c l IH]; intros H; simpl; [reflexivity|].
  rewrite filter_app, map_app, IH by (intros; apply H; right; assumption).
  f_equal. apply (H c (or_introl eq_refl) ctx).
Qed.

(** On a parsed tree the visitor meets the [break], [continue] and [return]
    statements in the order of the text. *)
Lemma transfers_in_textual_order n :
  parsed n = true ->
  forall ctx, map line_of (transfers ctx n) = Textual.transfer_lines n.
Proof.
  induction n as [n IH] using node_children_ind. intros P ctx.
  assert (IH' : forall c, In c (children n) -> forall ctx',
               map line_of (transfers ctx' c) = Textual.transfer_lines c)
    by (intros c Hc; apply IH; eauto using parsed_children).
  assert (F : is_forbidden n =
              match classify (cls n) with KForbidden _ => true | _ => false end)
    by reflexivity.
  unfold transfers. rewrite nesting_unfold, transfer_lines_unfold.
  cbn [filter snd]. rewrite F.
  destruct (classify (cls n)) as [| | |good|] eqn:K; cbn [map].
  - apply transfers_flat_map, IH'.
  - rewrite parsed_unfold in P. apply andb_true_iff in P. destruct P as [T _].
    apply classify_try in K. rewrite K in T.
    destruct (try_in_order_inv _ T) as (lb & lh & lo & lf & E).
    assert (C : children n = lb ++ lh ++ lo ++ lf)
      by (unfold children; rewrite E; simpl; rewrite app_nil_r; reflexivity).
    rewrite E. cbn [nesting_attr String.eqb Ascii.eqb Bool.eqb]. cbn.
    unfold nesting_list. rewrite C in *.
    rewrite !filter_app, !map_app, !flat_map_app.
    repeat f_equal; apply transfers_flat_map; intros c Hc; apply IH';
      repeat (apply in_or_app; (left; assumption) || right); assumption.
  - apply transfers_flat_map, IH'.
  - reflexivity.
  - apply transfers_flat_map, IH'.
Qed.

Lemma split_length sep s :
  List.length (Reporter.split sep s) = S (count_occ Byte.byte_eq_dec s sep).
Proof.
  induction s as [|b s IH]; simpl; [reflexivity|].
  destruct (Byte.byte_eq_dec b sep) as [->|Hne].
  - rewrite Byte.byte_dec_lb by reflexivity. simpl. rewrite IH. reflexivity.
  - destruct (Byte.eqb b sep) eqn:E.
    + apply Byte.byte_dec_bl in E. contradiction.
    + destruct (Reporter.split sep s); simpl in *; [discriminate | exact IH].
Qed.

(** C5: when [ast.parse] raises [SyntaxError] or [RecursionError], [report]
    returns normally and the reporter is unchanged: no finding appended, the
    same line count, nothing printed.  Whatever the scan does next, it does
    it from the same state. *)
Theorem report_skips_parse_failure parse src fname verbose self :
  parse src = inr SyntaxError \/ parse src = inr RecursionError ->
  Reporter.report parse src fname verbose self = Done tt self /\
  forall next : M Reporter.t unit,
    (Reporter.report parse src fname verbose ;; next) self = next self.
Proof.
  intros H.
  assert (E : Reporter.report parse src fname verbose self = Done tt self)
    by (unfold Reporter.report; destruct H as [-> | ->]; reflexivity).
  split; [exact E|]. intros next. unfold bind. rewrite E. reflexivity.
Qed.

Lemma report_skips_parse_failure_witness :
  Reporter.report (fun _ => inr SyntaxError) [x62; x72; x0a] "bad.py" 1
                  (Reporter.mk [] 10 []) =
  Done tt (Reporter.mk [] 10 []) /\
  Reporter.report (fun _ => inr RecursionError) [x62; x72; x0a] "bad.py" 1
                  (Reporter.mk [] 10 []) =
  Done tt (Reporter.mk [] 10 []).
Proof.
  split.
  - apply (report_skips_parse_failure (fun _ => inr SyntaxError)).
    left. reflexivity.
  - apply (report_skips_parse_failure (fun _ => inr RecursionError)).
    right. reflexivity.
Defined.

Lemma sorted_app_l (l1 l2 : list Z) : Sorted Z.le (l1 ++ l2) -> Sorted Z.le l1.
Proof.
  induction l1 as [|x l1 IH]; simpl; intros H; [constructor|].
  apply Sorted_inv in H. destruct H as [H Hd].
  constructor; [apply IH, H|].
  destruct l1; [constructor|]. simpl in Hd. apply HdRel_inv in Hd.
  constructor. exact Hd.
Qed.

(** C7: the input parses to a tree [a] as the parser builds it, in which
    the line numbers of the [break], [continue] and [return] statements do
    not decrease in the order of the text.  However [report] ends, the
    earlier findings are kept as they were, and the findings appended after
    them are those of the first violating statements in traversal order,
    one finding each, with the line numbers in ascending order (equal when
    two statements share a line); nothing is removed or merged.  When
    [report] returns, every violating statement of the tree has its
    finding. *)
Theorem findings_in_traversal_order parse src fname verbose self a :
  parse src = inl a ->
  parsed a = true ->
  Sorted Z.le (Textual.transfer_lines a) ->
  (exists shown rest,
      map (fun cn => mkFinding fname src (lineno (snd cn))) (violations [] a) =
      shown ++ rest /\
      Reporter.findings (after (Reporter.report parse src fname verbose self)) =
      Reporter.findings self ++ shown /\
      Sorted Z.le (map f_lineno shown)) /\
  (forall r,
      Reporter.report parse src fname verbose self = Done tt r ->
      Reporter.findings r =
      Reporter.findings self ++
      map (fun cn => mkFinding fname src (lineno (snd cn))) (violations [] a)).
Proof.
  intros P W S. unfold Reporter.report. rewrite P.
  rewrite <- (transfers_in_textual_order a W []) in S.
  apply violations_sorted in S.
  pose proof (visit_upto a
                (init src fname (Reporter.findings self) (Reporter.stdout self)))
    as H.
  cbn [state init] in H.
  destruct (visit a _) as [[] v|e v]; cbn [agrees_upto] in H.
  - subst v.
    destruct (add_findings_fields (violations [] a)
                (init src fname (Reporter.findings self) (Reporter.stdout self)))
      as (_ & _ & F & _).
    cbn [init filename source findings] in F. split.
    + eexists. exists []. rewrite app_nil_r.
      split; [reflexivity|]. split; [exact F|].
      rewrite map_map. exact S.
    + intros r [= <-]. exact F.
  - destruct H as (shown & rest & E & F & _).
    destruct (add_findings_fields shown
                (init src fname (Reporter.findings self) (Reporter.stdout self)))
      as (_ & _ & F' & _).
    cbn [init filename source findings] in F'. rewrite F' in F. split.
    + exists (map (fun cn => mkFinding fname src (lineno (snd cn))) shown),
             (map (fun cn => mkFinding fname src (lineno (snd cn))) rest).
      rewrite E, map_app. split; [reflexivity|]. split; [exact F|].
      rewrite map_map. cbn [f_lineno].
      unfold line_of in S. rewrite E, map_app in S.
      apply sorted_app_l in S. exact S.
    + discriminate.
Qed.

Lemma findings_in_traversal_order_witness :
  exists r,
    Reporter.report (fun _ => inl Sample.sample) [] "a.py" 1 (Reporter.init []) =
    Done tt r /\
    Reporter.findings r = [mkFinding "a.py" [] 7; mkFinding "a.py" [] 12].
Proof.
  destruct (findings_in_traversal_order
              (fun _ => inl Sample.sample) [] "a.py" 1 (Reporter.init [])
              Sample.sample eq_refl eq_refl) as [_ H].
  - repeat constructor; vm_compute; discriminate.
  - eexists. split; [reflexivity|]. apply H. reflexivity.
Defined.

(** Two violating statements on one line give two findings with the same
    line number: the order is ascending, not strictly. *)
Example findings_on_one_line :
  exists s',
    visit (Sample.for_ 1 [Sample.try 2 [Sample.pass 2] [] []
                            [Sample.break 3; Sample.continue 3]] [])
          Sample.visitor0 = Done tt s' /\
    map f_lineno (findings s') = [3%Z; 3%Z].
Proof. eexists. split; reflexivity. Qed.



(** ** The scenarios of the description, run through [report] *)

(** [def f(): / for x in y: / try: pass / finally: break] *)
Example scenario_break_in_finally_in_loop :
  Sample.run (Sample.module
         [Sample.def 1 [Sample.for_ 2 [Sample.try 3 [Sample.pass 4] [] []
                                         [Sample.break 6]] []]])
  = Some [6%Z].
Proof. reflexivity. Qed.

(** [try: pass / finally: / for x in y: break] *)
Example scenario_loop_in_finally :
  Sample.run (Sample.module
         [Sample.try 1 [Sample.pass 2] [] []
            [Sample.for_ 4 [Sample.break 5] []]])
  = Some [].
Proof. reflexivity. Qed.

(** [def f(): / try: pass / finally: return 1] *)
Example scenario_return_in_finally :
  Sample.run (Sample.module
         [Sample.def 1 [Sample.try 2 [Sample.pass 3] [] [] [Sample.return_ 5]]])
  = Some [5%Z].
Proof. reflexivity. Qed.

(** [for x in y: / try: pass / finally: continue] *)
Example scenario_continue_in_finally :
  Sample.run (Sample.module
         [Sample.for_ 1 [Sample.try 2 [Sample.pass 3] [] []
                           [Sample.continue 5]] []])
  = Some [5%Z].
Proof. reflexivity. Qed.

(** [break] alone at the top of a module *)
Example scenario_break_at_top :
  Sample.run (Sample.module [Sample.break 1]) = Some [].
Proof. reflexivity. Qed.

(** The sample tree: findings at lines 7 and 12. *)
Example scenario_sample : Sample.run Sample.sample = Some [7%Z; 12%Z].
Proof. reflexivity. Qed.

(** * Further properties *)

(** ** What a visit does to the visitor, however it ends *)

Lemma grown_refl s : grown s s.
Proof.
  split; [reflexivity|]. split; [reflexivity|].
  exists []. simpl. rewrite !app_nil_r. auto.
Qed.

Lemma grown_trans s1 s2 s3 : grown s1 s2 -> grown s2 s3 -> grown s1 s3.
Proof.
  intros (S1 & F1 & ns1 & A1 & B1) (S2 & F2 & ns2 & A2 & B2).
  split; [congruence|]. split; [congruence|].
  exists (ns1 ++ ns2). rewrite A2, B2, A1, B1, F1, S1, !map_app, !app_assoc.
  auto.
Qed.

Lemma grown_set_state st s : grown s (set_state st s).
Proof.
  split; [reflexivity|]. split; [reflexivity|].
  exists []. simpl. rewrite !app_nil_r. auto.
Qed.

Lemma grown_add_finding s n : grown s (add_finding s n).
Proof.
  split; [reflexivity|]. split; [reflexivity|].
  exists [lineno n]. simpl. auto.
Qed.

Lemma growing_bind (m k : M t unit) : growing m -> growing k -> growing (m ;; k).
Proof.
  intros Hm Hk s. unfold bind. specialize (Hm s).
  destruct (m s) as [[] s1|e s1]; simpl in *; [|exact Hm].
  eapply grown_trans; [exact Hm | apply Hk].
Qed.

Lemma growing_for_each {A} (f : A -> M t unit) l :
  (forall a, In a l -> growing (f a)) -> growing (for_each f l).
Proof.
  induction l as [|a l IH]; intros H; cbn [for_each].
  - intros s. apply grown_refl.
  - apply growing_bind; [apply H; left; reflexivity|].
    apply IH. intros b Hb. apply H. right. exact Hb.
Qed.

Lemma growing_state_append m : growing (state_append m).
Proof. intros s. apply grown_set_state. Qed.

Lemma growing_state_pop : growing state_pop.
Proof.
  intros s. unfold state_pop.
  destruct (state s); simpl; [apply grown_refl | apply grown_set_state].
Qed.

Lemma growing_do_forbidden n good_state : growing (do_forbidden n good_state).
Proof.
  intros s. unfold do_forbidden.
  destruct good_state as [good|]; [|apply grown_refl].
  destruct (state s); [apply grown_refl|].
  destruct (scan _ _ _) as [e|found]; [apply grown_refl|].
  destruct (is_finally found); [apply grown_add_finding | apply grown_refl].
Qed.

Lemma growing_visit_attr name n :
  (forall c, In c (children n) -> growing (visit c)) ->
  growing (visit_attr visit name n).
Proof.
  intros H. rewrite visit_attr_getattr.
  destruct (getattr n name) as [[c|l|]|] eqn:E;
    try (intros s; apply grown_refl).
  apply growing_for_each. intros c Hc. apply H.
  eapply getattr_list_children; eauto.
Qed.

Lemma growing_generic_visit n :
  (forall c, In c (children n) -> growing (visit c)) ->
  growing (generic_visit visit n).
Proof.
  intros H s. rewrite generic_visit_children.
  apply (growing_for_each visit (children n) H).
Qed.

Lemma growing_visit n : growing (visit n).
Proof.
  induction n as [n IH] using node_children_ind.
  rewrite visit_dispatch.
  destruct (classify (cls n)) as [| | |good|].
  - repeat apply growing_bind;
      auto using growing_state_append, growing_state_pop, growing_generic_visit.
  - repeat apply growing_bind;
      auto using growing_state_append, growing_state_pop, growing_visit_attr.
  - repeat apply growing_bind;
      auto using growing_state_append, growing_state_pop, growing_generic_visit.
  - apply growing_do_forbidden.
  - apply growing_generic_visit, IH.
Qed.


(** ** The exceptions of a visit *)



(** ** Trees without [try] *)

Lemma try_free_unfold n :
  try_free n = negb (is_try (cls n)) && forallb try_free (children n).
Proof.
  destruct n as [cl ln fs]. cbn [try_free]. f_equal.
  unfold all_fields, children. cbn [fields].
  induction fs as [|[k v] fs IH]; simpl; [reflexivity|].
  rewrite forallb_app, IH. f_equal.
  destruct v; simpl; auto using andb_true_r.
Qed.

Lemma try_free_children n c :
  try_free n = true -> In c (children n) -> try_free c = true.
Proof.
  rewrite try_free_unfold. intros H Hc.
  apply andb_true_iff in H. destruct H as [_ H].
  rewrite forallb_forall in H. apply H, Hc.
Qed.

Lemma nearest_finally_in ctx good :
  is_finally (nearest ctx good) = true -> In FINALLY ctx.
Proof.
  unfold nearest. intros H.
  destruct (find _ (rev ctx)) as [m|] eqn:E; [|discriminate].
  apply find_some in E. destruct E as [Hin _].
  apply String.eqb_eq in H. subst m. apply in_rev, Hin.
Qed.

(** Without a [Try] node no marker FINALLY comes onto the stack. *)
Lemma try_free_nesting n :
  try_free n = true ->
  forall ctx cm, In cm (nesting ctx n) -> In FINALLY (fst cm) -> In FINALLY ctx.
Proof.
  induction n as [n IH] using node_children_ind. intros T ctx cm Hin HF.
  assert (K : classify (cls n) <> KTry).
  { intros K. apply classify_try in K. rewrite try_free_unfold, K in T.
    discriminate. }
  assert (step : forall ctx', (In FINALLY ctx' -> In FINALLY ctx) ->
             In cm (flat_map (nesting ctx') (children n)) -> In FINALLY ctx).
  { intros ctx' Hctx H. apply in_flat_map in H. destruct H as (c & Hc & H).
    apply Hctx. eapply IH; eauto using try_free_children. }
  assert (push : forall m, m <> FINALLY ->
             In FINALLY (ctx ++ [m]) -> In FINALLY ctx).
  { intros m Hm H. apply in_app_or in H. destruct H as [H|[H|[]]]; [exact H|].
    congruence. }
  rewrite nesting_unfold in Hin. destruct Hin as [<-|Hin]; [exact HF|].
  destruct (classify (cls n)) as [| | |good|].
  - apply (step (ctx ++ [DEF])); [apply push; discriminate | exact Hin].
  - contradiction K. reflexivity.
  - apply (step (ctx ++ [LOOP])); [apply push; discriminate | exact Hin].
  - destruct Hin.
  - apply (step ctx); auto.
Qed.

(** X3: on a tree with no [Try] and no [TryStar] node, visited with a stack
    that holds no FINALLY marker, no finding is recorded and nothing is
    printed, however the visit ends; and when it returns the visitor is
    exactly as it was. *)
Theorem visit_without_try n s :
  try_free n = true ->
  ~ In FINALLY (state s) ->
  findings (after (visit n s)) = findings s /\
  stdout (after (visit n s)) = stdout s /\
  (forall s', visit n s = Done tt s' -> s' = s).
Proof.
  intros T HF.
  assert (V : violations (state s) n = []).
  { unfold violations.
    destruct (filter violating (nesting (state s) n)) as [|cm l] eqn:E;
      [reflexivity|].
    assert (Hin : In cm (filter violating (nesting (state s) n)))
      by (rewrite E; left; reflexivity).
    apply filter_In in Hin. destruct Hin as [Hin Hv].
    contradiction HF. apply (try_free_nesting n T (state s) cm Hin).
    unfold violating in Hv.
    destruct (classify (cls (snd cm))); try discriminate.
    eapply nearest_finally_in, Hv. }
  pose proof (visit_upto n s) as H. rewrite V in H.
  destruct (visit n s) as [[] s1|e s1]; cbn [agrees_upto after] in *.
  - subst s1. repeat split. intros s' [= <-]. reflexivity.
  - destruct H as (shown & rest & E & F & O).
    symmetry in E. apply app_eq_nil in E. destruct E as [-> _].
    repeat split; [exact F | exact O | discriminate].
Qed.

Lemma visit_without_try_witness :
  findings
    (after (visit (Sample.module
                     [Sample.def 1 [Sample.for_ 2 [Sample.break 3;
                                                   Sample.return_ 4] []]])
                  (set_state ["L"; "D"] Sample.visitor0))) =
  findings (set_state ["L"; "D"] Sample.visitor0).
Proof.
  apply visit_without_try.
  - reflexivity.
  - simpl. intros [H|[H|[]]]; discriminate.
Defined.

(** ** What [report] does to the reporter, however it ends *)

Lemma report_after parse src fname verbose self :
  reported fname src self (after (Reporter.report parse src fname verbose self)).
Proof.
  unfold Reporter.report.
  assert (same : reported fname src self self).
  { exists []. simpl. rewrite !app_nil_r. auto. }
  destruct (parse src) as [a|e].
  - destruct (growing_visit a
                (init src fname (Reporter.findings self) (Reporter.stdout self)))
      as (_ & _ & ns & F & O).
    cbn [init Visitor.findings Visitor.stdout Visitor.filename Visitor.source]
      in F, O.
    destruct (visit a _) as [[] v|e v]; cbn [after] in *;
      exists ns; cbn; auto.
  - destruct e; exact same.
Qed.


(** ** [source.split(b'\n')] *)

Lemma split_not_nil sep s : Reporter.split sep s <> [].
Proof.
  destruct s as [|b s]; simpl; [discriminate|].
  destruct (Byte.eqb b sep); [discriminate|].
  destruct (Reporter.split sep s); discriminate.
Qed.

Lemma join_cons sep p rest :
  rest <> [] -> join sep (p :: rest) = p ++ sep :: join sep rest.
Proof. destruct rest; [contradiction | reflexivity]. Qed.

(** X6: splitting at a byte loses nothing.  The pieces joined again with
    the separator are the source, no piece holds the separator, and there
    is at least one piece, so that [len(source.split(b'\n'))] is at least 1
    also for an empty source. *)
Theorem split_join sep s :
  join sep (Reporter.split sep s) = s /\
  Forall (fun piece => ~ In sep piece) (Reporter.split sep s) /\
  (1 <= List.length (Reporter.split sep s))%nat.
Proof.
  split; [|split].
  - induction s as [|b s IH]; simpl; [reflexivity|].
    destruct (Byte.eqb b sep) eqn:E.
    + apply Byte.byte_dec_bl in E. subst b.
      rewrite join_cons by apply split_not_nil. rewrite IH. reflexivity.
    + pose proof (split_not_nil sep s) as N.
      destruct (Reporter.split sep s) as [|cur rest]; [contradiction|].
      rewrite <- IH. destruct rest; reflexivity.
  - induction s as [|b s IH]; simpl.
    + constructor; [intros [] | constructor].
    + destruct (Byte.eqb b sep) eqn:E.
      * constructor; [intros [] | exact IH].
      * pose proof (split_not_nil sep s) as N.
        destruct (Reporter.split sep s) as [|cur rest]; [contradiction|].
        inversion IH as [|x l Hcur Hrest]; subst.
        constructor; [|exact Hrest].
        intros [->|H]; [|exact (Hcur H)].
        rewrite Byte.byte_dec_lb in E by reflexivity. discriminate.
  - rewrite split_length. lia.
Qed.

(** ** [name.endswith(suffix)] *)

Lemma substring_all s : substring 0 (String.length s) s = s.
Proof. induction s as [|c s IH]; simpl; [reflexivity | rewrite IH; reflexivity]. Qed.

Lemma substring_append p s :
  substring (String.length p) (String.length s) (p ++ s)%string = s.
Proof. induction p as [|c p IH]; simpl; [apply substring_all | exact IH]. Qed.

Lemma substring_split s i :
  (i <= String.length s)%nat ->
  s = (substring 0 i s ++ substring i (String.length s - i) s)%string.
Proof.
  revert i. induction s as [|c s IH]; intros [|i] Hi; simpl in *; try lia.
  - reflexivity.
  - rewrite substring_all. reflexivity.
  - rewrite <- IH by lia.
    destruct i; simpl; reflexivity.
Qed.

Lemma append_length p s :
  String.length (p ++ s)%string = (String.length p + String.length s)%nat.
Proof. induction p as [|c p IH]; simpl; [reflexivity | rewrite IH; reflexivity]. Qed.

Lemma endswith_spec name suffix :
  Files.endswith name suffix = true <->
  exists stem, name = (stem ++ suffix)%string.
Proof.
  unfold Files.endswith. rewrite andb_true_iff, Nat.leb_le, String.eqb_eq. split.
  - intros [Hle E].
    exists (substring 0 (String.length name - String.length suffix) name).
    pose proof (substring_split name
                  (String.length name - String.length suffix)) as H.
    replace (String.length name - (String.length name - String.length suffix))%nat
      with (String.length suffix) in H by lia.
    rewrite E in H. apply H. lia.
  - intros [stem ->]. rewrite append_length. split; [lia|].
    replace (String.length stem + String.length suffix - String.length suffix)%nat
      with (String.length stem) by lia.
    apply substring_append.
Qed.

(** ** [file_report] *)

Lemma extended_refl w : extended w w.
Proof.
  split; [exists []; rewrite app_nil_r; reflexivity|].
  split; [exists []; rewrite app_nil_r; reflexivity | lia].
Qed.

Lemma extended_trans w1 w2 w3 : extended w1 w2 -> extended w2 w3 -> extended w1 w3.
Proof.
  intros ([n1 F1] & [p1 C1] & L1) ([n2 F2] & [p2 C2] & L2).
  split; [exists (n1 ++ n2); rewrite F2, F1, app_assoc; reflexivity|].
  split; [exists (p1 ++ p2); rewrite C2, C1, app_assoc; reflexivity | lia].
Qed.


Lemma except_print_done name verbose err w :
  Files.except_print name verbose err w =
  Done tt (Files.mk (Files.findings w) (Files.lines w)
             (Files.console w ++
              if (0 <? verbose)%Z then [Files.Problem name err] else [])).
Proof.
  unfold Files.except_print. destruct (0 <? verbose)%Z; [reflexivity|].
  unfold ret. rewrite app_nil_r. destruct w; reflexivity.
Qed.

Lemma files_report_after parse src name verbose w :
  extended w (after (Files.report parse src name verbose w)).
Proof.
  unfold Files.report.
  pose proof (report_after parse src name verbose
                (Reporter.mk (Files.findings w) (Files.lines w) [])) as H.
  destruct (Reporter.report parse src name verbose _) as [[] r|e r];
    cbn [after] in *; destruct H as (ns & F & _ & L);
    cbn [Reporter.findings Reporter.lines] in *;
    (split; [eexists; exact F|]);
    (split; [eexists; reflexivity|]); cbn [Files.lines]; destruct L; lia.
Qed.

Lemma files_report_parse_error parse src name verbose w e :
  parse src = inr e ->
  Files.report parse src name verbose w =
  if caught e then Done tt w else Raised e w.
Proof.
  intros P. unfold Files.report, Reporter.report. rewrite P.
  destruct w as [f l c]. destruct e; simpl; rewrite app_nil_r; reflexivity.
Qed.

Lemma files_report_parsed parse src name verbose w a :
  parse src = inl a ->
  (forall found out, returns (visit a (init src name found out))) ->
  exists w',
    Files.report parse src name verbose w = Done tt w' /\
    extended w w' /\
    Files.lines w' =
    (Files.lines w + Z.of_nat (List.length (Reporter.split Reporter.newline src)))%Z.
Proof.
  intros P R.
  pose proof (files_report_after parse src name verbose w) as H.
  unfold Files.report, Reporter.report in *. rewrite P in *.
  cbn [Reporter.findings Reporter.stdout Reporter.lines] in *.
  destruct (R (Files.findings w) []) as [v E]. rewrite E in *. cbn [after] in H.
  eexists. split; [reflexivity|]. split; [exact H | reflexivity].
Qed.



(** X8: a file that cannot be read, or whose source [ast.parse] rejects,
    leaves the findings and the line count as they were.  For a read error
    one line naming the file and the error is printed when [verbose > 0].
    For a parse failure nothing is printed when the exception is
    [SyntaxError] or [RecursionError], whatever [verbose] is; any other
    exception of [ast.parse] is caught here and printed like a read error. *)
Theorem file_report_failure parse read_file filename verbose w err :
  (read_file filename = inr err ->
   Files.file_report parse read_file filename verbose w =
   Done tt (Files.mk (Files.findings w) (Files.lines w)
              (Files.console w ++
               if (0 <? verbose)%Z then [Files.Problem filename err] else []))) /\
  (forall src,
     read_file filename = inl src ->
     parse src = inr err ->
     Files.file_report parse read_file filename verbose w =
     Done tt (Files.mk (Files.findings w) (Files.lines w)
                (Files.console w ++
                 if (0 <? verbose)%Z && negb (caught err)
                 then [Files.Problem filename err] else []))).
Proof.
  unfold Files.file_report. split.
  - intros R. rewrite R. apply except_print_done.
  - intros src R P. rewrite R.
    rewrite (files_report_parse_error parse src filename verbose w err P).
    destruct (caught err) eqn:C.
    + rewrite andb_false_r, app_nil_r. destruct w; reflexivity.
    + rewrite andb_true_r. apply except_print_done.
Qed.

Lemma file_report_failure_witness :
  Files.file_report (fun _ => inr SyntaxError) (fun _ => inl [x62; x0a])
                    "bad.py" 2 (Files.mk [] 5 []) =
  Done tt (Files.mk [] 5 []) /\
  Files.file_report (fun _ => inr OtherException) (fun _ => inl [x00])
                    "nul.py" 1 (Files.mk [] 5 []) =
  Done tt (Files.mk [] 5 [Files.Problem "nul.py" OtherException]) /\
  Files.file_report (fun _ => inr SyntaxError) (fun _ => inr OtherException)
                    "gone.py" 1 (Files.mk [] 5 []) =
  Done tt (Files.mk [] 5 [Files.Problem "gone.py" OtherException]).
Proof.
  split; [|split].
  - apply (proj2 (file_report_failure (fun _ => inr SyntaxError)
                    (fun _ => inl [x62; x0a]) "bad.py" 2 (Files.mk [] 5 [])
                    SyntaxError) [x62; x0a]); reflexivity.
  - apply (proj2 (file_report_failure (fun _ => inr OtherException)
                    (fun _ => inl [x00]) "nul.py" 1 (Files.mk [] 5 [])
                    OtherException) [x00]); reflexivity.
  - apply (proj1 (file_report_failure (fun _ => inr SyntaxError)
                    (fun _ => inr OtherException) "gone.py" 1 (Files.mk [] 5 [])
                    OtherException)); reflexivity.
Defined.

(** ** [tarball_report] *)

Lemma tarball_member_other parse verbose m w :
  is_py m = false -> Files.tarball_member parse verbose m w = Done tt w.
Proof.
  unfold Files.tarball_member, is_py. intros ->. reflexivity.
Qed.

Lemma tarball_loop_filter parse verbose members w :
  for_each (Files.tarball_member parse verbose) members w =
  for_each (Files.tarball_member parse verbose) (filter is_py members) w.
Proof.
  revert w. induction members as [|m members IH]; intros w; [reflexivity|].
  cbn [filter for_each]. destruct (is_py m) eqn:E.
  - cbn [for_each]. unfold bind.
    destruct (Files.tarball_member parse verbose m w) as [[] w1|e w1];
      [apply IH | reflexivity].
  - unfold bind. rewrite (tarball_member_other parse verbose m w E). apply IH.
Qed.

(** X9: [tarball_report] looks only at the members whose name ends in
    [.py], that is the names [stem ++ ".py"]: its outcome, findings, line
    count and printed lines are those of the loop run over these members
    alone, each with what reading it gives in this archive.  A member with
    another name is not read, not parsed and not mentioned. *)
Theorem tarball_report_ignores_other_members parse open_tar filename verbose
    members w :
  open_tar filename = inl members ->
  Files.tarball_report parse open_tar filename verbose w =
  for_each (Files.tarball_member parse verbose) (filter is_py members)
    (Files.mk (Files.findings w) (Files.lines w)
       (Files.console w ++
        if (1 <? verbose)%Z then [Files.Examining filename] else [])) /\
  forall m, is_py m = true <-> exists stem, fst m = (stem ++ ".py")%string.
Proof.
  intros O. split; [|intros m; apply endswith_spec].
  unfold Files.tarball_report, bind. rewrite O.
  destruct (1 <? verbose)%Z; cbn [Files.print].
  - apply tarball_loop_filter.
  - unfold ret. rewrite app_nil_r, tarball_loop_filter.
    destruct w; reflexivity.
Qed.

Lemma tarball_report_ignores_other_members_witness :
  Files.tarball_report (fun _ => inl (Sample.module [Sample.pass 1]))
    (fun _ => inl [("README", inl [x61; x0a]); ("a.py", inl [x0a]);
                   ("setup.cfg", inr OtherException)])
    "x.tar.gz" 1 (Files.mk [] 0 []) =
  Files.tarball_member (fun _ => inl (Sample.module [Sample.pass 1])) 1
    ("a.py", inl [x0a]) (Files.mk [] 0 []).
Proof.
  rewrite (proj1 (tarball_report_ignores_other_members
                    (fun _ => inl (Sample.module [Sample.pass 1]))
                    (fun _ => inl [("README", inl [x61; x0a]); ("a.py", inl [x0a]);
                                   ("setup.cfg", inr OtherException)])
                    "x.tar.gz" 1
                    [("README", inl [x61; x0a]); ("a.py", inl [x0a]);
                     ("setup.cfg", inr OtherException)]
                    (Files.mk [] 0 []) eq_refl)).
  reflexivity.
Defined.

Lemma tarball_member_harmless parse verbose m w :
  harmless parse m ->
  exists w',
    Files.tarball_member parse verbose m w = Done tt w' /\
    extended w w' /\
    Files.lines w' = (Files.lines w + counted parse m)%Z.
Proof.
  intros H. unfold Files.tarball_member, counted, harmless, is_py in *.
  destruct (Files.endswith (fst m) ".py").
  - destruct (snd m) as [src|err].
    + specialize (H eq_refl src eq_refl).
      destruct (parse src) as [a|e] eqn:P.
      * apply (files_report_parsed parse src (fst m) (verbose - 1) w a P H).
      * rewrite (files_report_parse_error parse src (fst m) (verbose - 1) w e P), H.
        exists w. split; [reflexivity|]. split; [apply extended_refl | lia].
    + rewrite except_print_done. eexists. split; [reflexivity|].
      split; [|simpl; lia].
      split; [exists []; simpl; rewrite app_nil_r; reflexivity|].
      split; [eexists; reflexivity | simpl; lia].
  - exists w. split; [reflexivity|]. split; [apply extended_refl | lia].
Qed.

Lemma tarball_loop_harmless parse verbose members w :
  Forall (harmless parse) members ->
  exists w',
    for_each (Files.tarball_member parse verbose) members w = Done tt w' /\
    extended w w' /\
    Files.lines w' =
    (Files.lines w + fold_right Z.add 0 (map (counted parse) members))%Z.
Proof.
  intros H. revert w. induction H as [|m members Hm _ IH]; intros w.
  - exists w. split; [reflexivity|]. split; [apply extended_refl | simpl; lia].
  - destruct (tarball_member_harmless parse verbose m w Hm) as (w1 & E1 & X1 & L1).
    destruct (IH w1) as (w2 & E2 & X2 & L2).
    exists w2. cbn [for_each]. unfold bind. rewrite E1.
    split; [exact E2|]. split; [eapply extended_trans; eauto|].
    cbn [map fold_right]. lia.
Qed.

Lemma tarball_report_loop parse open_tar filename verbose members w :
  open_tar filename = inl members ->
  Files.tarball_report parse open_tar filename verbose w =
  for_each (Files.tarball_member parse verbose) members
    (Files.mk (Files.findings w) (Files.lines w)
       (Files.console w ++
        if (1 <? verbose)%Z then [Files.Examining filename] else [])).
Proof.
  intros O. unfold Files.tarball_report, bind. rewrite O.
  destruct (1 <? verbose)%Z; [reflexivity|].
  unfold ret. rewrite app_nil_r. destruct w; reflexivity.
Qed.

(** X10: an archive all of whose [.py] members either cannot be read, or
    parse to a tree whose visit returns, or fail to parse with
    [SyntaxError] or [RecursionError]: [tarball_report] returns, nothing
    the reporter or the console held is lost, and the line count has grown
    by the sum of the line counts of the [.py] members that were read and
    parsed; the members that failed add nothing and stop nothing. *)
Theorem tarball_report_counts parse open_tar filename verbose members w :
  open_tar filename = inl members ->
  Forall (harmless parse) members ->
  exists w',
    Files.tarball_report parse open_tar filename verbose w = Done tt w' /\
    extended w w' /\
    Files.lines w' =
    (Files.lines w + fold_right Z.add 0 (map (counted parse) members))%Z.
Proof.
  intros O H. rewrite (tarball_report_loop parse open_tar filename verbose members w O).
  destruct (tarball_loop_harmless parse verbose members
              (Files.mk (Files.findings w) (Files.lines w)
                 (Files.console w ++
                  if (1 <? verbose)%Z then [Files.Examining filename] else []))
              H) as (w' & E & X & L).
  exists w'. split; [exact E|]. split; [|exact L].
  eapply extended_trans; [|exact X].
  split; [exists []; simpl; rewrite app_nil_r; reflexivity|].
  split; [eexists; reflexivity | simpl; lia].
Qed.

Ltac harmless_members :=
  repeat match goal with
         | |- Forall _ (_ :: _) => apply Forall_cons
         | |- Forall _ [] => apply Forall_nil
         end;
  intros Hpy source Hread; try discriminate Hpy; try discriminate Hread;
  injection Hread as <-; cbn;
  try reflexivity; intros found out; eexists; reflexivity.

Lemma tarball_report_counts_witness :
  exists w',
    Files.tarball_report
      (fun src => match src with
                  | [] => inr SyntaxError
                  | _ :: _ => inl (Sample.module [Sample.pass 1])
                  end)
      (fun _ => inl [("a.py", inl [x61; x0a]); ("bad.py", inl []);
                     ("gone.py", inr OtherException);
                     ("notes.txt", inl [x0a; x0a])])
      "x.tar.gz" 1 (Files.mk [] 10 []) = Done tt w' /\
    Files.lines w' = 12%Z.
Proof.
  destruct (tarball_report_counts
              (fun src => match src with
                          | [] => inr SyntaxError
                          | _ :: _ => inl (Sample.module [Sample.pass 1])
                          end)
              (fun _ => inl [("a.py", inl [x61; x0a]); ("bad.py", inl []);
                             ("gone.py", inr OtherException);
                             ("notes.txt", inl [x0a; x0a])])
              "x.tar.gz" 1
              [("a.py", inl [x61; x0a]); ("bad.py", inl []);
               ("gone.py", inr OtherException); ("notes.txt", inl [x0a; x0a])]
              (Files.mk [] 10 []) eq_refl)
    as (w' & E & _ & L).
  - harmless_members.
  - exists w'. split; [exact E | exact L].
Defined.

(** X11: unlike [file_report], [tarball_report] does not catch what
    [report] raises.  When the loop has gone through the members [pre] and
    the source of the next [.py] member makes [ast.parse] raise anything
    but [SyntaxError] and [RecursionError], the exception leaves
    [tarball_report] at that member: the reporter and the console are as
    the members before it left them, nothing is printed about it, and the
    members after it are not looked at. *)
Theorem tarball_report_stops parse open_tar filename verbose
    pre name src post e w w1 :
  open_tar filename = inl (pre ++ (name, inl src) :: post) ->
  for_each (Files.tarball_member parse verbose) pre
    (Files.mk (Files.findings w) (Files.lines w)
       (Files.console w ++
        if (1 <? verbose)%Z then [Files.Examining filename] else [])) =
  Done tt w1 ->
  Files.endswith name ".py" = true ->
  parse src = inr e ->
  caught e = false ->
  Files.tarball_report parse open_tar filename verbose w = Raised e w1.
Proof.
  intros O E Py P C.
  rewrite (tarball_report_loop parse open_tar filename verbose _ w O).
  rewrite for_each_app. unfold bind at 1. rewrite E.
  cbn [for_each]. unfold bind.
  unfold Files.tarball_member at 1. cbn [fst snd]. rewrite Py.
  rewrite (files_report_parse_error parse src name (verbose - 1) w1 e P), C.
  reflexivity.
Qed.

Lemma tarball_report_stops_witness :
  Files.tarball_report
    (fun src => match src with
                | [] => inr OtherException
                | _ :: _ => inl (Sample.module [Sample.pass 1])
                end)
    (fun _ => inl [("a.py", inl [x61; x0a]); ("nul.py", inl []);
                   ("b.py", inl [x62; x0a])])
    "x.tar.gz" 1 (Files.mk [] 0 []) =
  Raised OtherException (Files.mk [] 2 []).
Proof.
  apply (tarball_report_stops
           (fun src => match src with
                       | [] => inr OtherException
                       | _ :: _ => inl (Sample.module [Sample.pass 1])
                       end)
           (fun _ => inl [("a.py", inl [x61; x0a]); ("nul.py", inl []);
                          ("b.py", inl [x62; x0a])])
           "x.tar.gz" 1
           [("a.py", inl [x61; x0a])] "nul.py" [] [("b.py", inl [x62; x0a])]
           OtherException (Files.mk [] 0 []) (Files.mk [] 2 []));
    reflexivity.
Defined.

(** ** [expand_globs] *)

(** X12: [expand_globs] passes the names through unchanged on every
    platform but win32, also the names that hold a [*], and on win32 when
    no name holds a [*]: [glob.glob] is not called. *)
Theorem expand_globs_unchanged win32 glob filenames :
  win32 = false \/ Forall (fun f => Main.contains "*" f = false) filenames ->
  Main.expand_globs win32 glob filenames = filenames.
Proof.
  intros H. unfold Main.expand_globs.
  induction filenames as [|f fs IH]; [reflexivity|].
  cbn [flat_map].
  assert (E : Main.contains "*" f && win32 = false).
  { destruct H as [->|H]; [apply andb_false_r|].
    inversion H as [|x l Hf _]; subst. rewrite Hf. reflexivity. }
  rewrite E. cbn [app]. f_equal. apply IH.
  destruct H as [H|H]; [left; exact H | right].
  inversion H; assumption.
Qed.

Lemma expand_globs_unchanged_witness :
  Main.expand_globs false (fun _ => []) ["src/*.py"; "a.py"] =
  ["src/*.py"; "a.py"] /\
  Main.expand_globs true (fun _ => []) ["src"; "a.py"] = ["src"; "a.py"].
Proof.
  split.
  - apply expand_globs_unchanged. left. reflexivity.
  - apply expand_globs_unchanged. right. repeat constructor.
Defined.

(** ** [main] *)

Section MainFacts.

Variable parse : list byte -> node + exn.
Variable read_file : string -> list byte + exn.
Variable open_tar : string -> list Files.member + exn.
Variable win32 : bool.
Variable glob : string -> list string.
Variable isfile : string -> bool.
Variable isdir : string -> bool.
Variable walk : string -> list (string * list string * list string).
Variable path_join : string -> string -> string.

Let run_main :=
  Main.main parse read_file open_tar win32 glob isfile isdir walk path_join.

(** X13: once [argparser.parse_args()] has returned the arguments, the
    rest of [main] ends in [NameError] exactly when [verbose] is set,
    [quiet] is not and there is at least one file name: the name
    [OF_INTEREST_NAMES] is not bound, and the exception comes before the
    reporter is made, with nothing examined and nothing printed.  With no
    file name it prints the usage and ends in [SystemExit] with code 0,
    whatever the flags. *)
Theorem main_stops_before_scanning quiet verbose filenames out :
  (quiet = false -> verbose = true -> filenames <> [] ->
   run_main quiet verbose filenames out =
   Main.Stopped (Main.NameError "OF_INTEREST_NAMES") (Files.mk [] 0 out)) /\
  (forall name w,
     run_main quiet verbose filenames out = Main.Stopped (Main.NameError name) w ->
     quiet = false /\ verbose = true /\ filenames <> []) /\
  (filenames = [] ->
   run_main quiet verbose filenames out =
   Main.Stopped (Main.SystemExit 0) (Files.mk [] 0 (out ++ [Files.Usage]))).
Proof.
  unfold run_main, Main.main. split; [|split].
  - intros -> -> H. destruct filenames; [contradiction | reflexivity].
  - intros name w. destruct filenames as [|f fs]; [discriminate|].
    destruct quiet, verbose; cbn [Main.verbosity Z.b2z Z.add Z.sub Z.leb];
      simpl (2 <=? _)%Z; cbv iota;
      try (destruct (for_each _ _ _); discriminate).
    intros _. repeat split. discriminate.
  - intros ->. reflexivity.
Qed.




Lemma calmly_ret : prints_calmly (ret tt).
Proof. intros w. exists []. simpl. rewrite app_nil_r. auto. Qed.

Lemma calmly_print l : calm l = true -> prints_calmly (Files.print l).
Proof. intros H w. exists [l]. simpl. rewrite H. auto. Qed.

Lemma calmly_bind (m k : M Files.t unit) :
  prints_calmly m -> prints_calmly k -> prints_calmly (m ;; k).
Proof.
  intros Hm Hk w. unfold bind. destruct (Hm w) as (p1 & C1 & F1).
  destruct (m w) as [[] w1|e w1]; cbn [after] in *.
  - destruct (Hk w1) as (p2 & C2 & F2). exists (p1 ++ p2).
    rewrite C2, C1, app_assoc, forallb_app, F1, F2. auto.
  - exists p1. auto.
Qed.

Lemma calmly_for_each {A} (f : A -> M Files.t unit) l :
  (forall a, prints_calmly (f a)) -> prints_calmly (for_each f l).
Proof.
  intros H. induction l as [|a l IH]; cbn [for_each].
  - apply calmly_ret.
  - apply calmly_bind; auto.
Qed.

Lemma calmly_report src name verbose :
  prints_calmly (Files.report parse src name verbose).
Proof.
  intros w. unfold Files.report.
  destruct (Reporter.report parse src name verbose _) as [[] r|e r];
    cbn [after Files.console]; eexists; (split; [reflexivity|]);
    induction (Reporter.stdout r); simpl; auto.
Qed.

Lemma calmly_except_print name err :
  prints_calmly (Files.except_print name 0 err).
Proof. apply calmly_ret. Qed.

Lemma calmly_file_report filename :
  prints_calmly (Files.file_report parse read_file filename 0).
Proof.
  intros w. unfold Files.file_report.
  destruct (read_file filename) as [src|err]; [|apply calmly_except_print].
  destruct (calmly_report src filename 0 w) as (p & C & F).
  destruct (Files.report parse src filename 0 w) as [[] w1|e w1];
    cbn [after] in *; exists p; auto.
Qed.

Lemma calmly_tarball_report filename :
  prints_calmly (Files.tarball_report parse open_tar filename 0).
Proof.
  unfold Files.tarball_report. apply calmly_bind; [apply calmly_ret|].
  intros w. destruct (open_tar filename) as [members|err].
  - apply calmly_for_each. intros m. unfold Files.tarball_member.
    destruct (Files.endswith (fst m) ".py"); [|apply calmly_ret].
    destruct (snd m); [apply calmly_report | apply calmly_except_print].
  - exists []. simpl. rewrite app_nil_r. auto.
Qed.

Lemma calmly_examine filename :
  prints_calmly (Main.examine parse read_file open_tar isfile isdir walk
                              path_join 0 filename).
Proof.
  unfold Main.examine. destruct (isfile filename).
  - destruct (Files.endswith filename ".tar.gz");
      [apply calmly_tarball_report | apply calmly_file_report].
  - destruct (isdir filename); [|apply calmly_print; reflexivity].
    unfold Main.walk_report. apply calmly_for_each. intros entry.
    apply calmly_for_each. intros file.
    destruct (Files.endswith file ".py");
      [apply calmly_file_report | apply calmly_ret].
Qed.

(** X15: run with [--quiet] and without [--verbose], [main] prints no
    diagnostic, however it ends: after what was on the console there are
    only finding lines, "Cannot open" lines, the usage and the total; no
    line about an unreadable file or member, and no "Examining tarball"
    line. *)
Theorem main_quiet filenames out :
  exists printed,
    Files.console (final (run_main true false filenames out)) = out ++ printed /\
    forallb calm printed = true.
Proof.
  unfold run_main, Main.main. destruct filenames as [|f fs].
  - exists [Files.Usage]. auto.
  - change (Main.verbosity true false) with 0%Z. cbn [Z.leb Z.compare].
    destruct (calmly_for_each
                (Main.examine parse read_file open_tar isfile isdir walk
                              path_join 0)
                (Main.expand_globs win32 glob (f :: fs)) calmly_examine
                (Files.mk [] 0 out)) as (p & C & F).
    destruct (for_each _ _ _) as [[] w|e w]; cbn [after final Files.console] in *.
    + exists (p ++ [Files.TotalLines (Files.lines w)]).
      rewrite C, app_assoc, forallb_app, F. auto.
    + exists p. auto.
Qed.

End MainFacts.

Lemma main_stops_before_scanning_witness :
  Main.main (fun _ => inr SyntaxError) (fun _ => inr OtherException)
            (fun _ => inr OtherException) false (fun _ => [])
            (fun _ => true) (fun _ => false) (fun _ => []) append
            false true ["a.py"] [] =
  Main.Stopped (Main.NameError "OF_INTEREST_NAMES") (Files.mk [] 0 []) /\
  Main.main (fun _ => inr SyntaxError) (fun _ => inr OtherException)
            (fun _ => inr OtherException) false (fun _ => [])
            (fun _ => true) (fun _ => false) (fun _ => []) append
            false false [] [] =
  Main.Stopped (Main.SystemExit 0) (Files.mk [] 0 [Files.Usage]).
Proof.
  split.
  - apply (proj1 (main_stops_before_scanning
                    (fun _ => inr SyntaxError) (fun _ => inr OtherException)
                    (fun _ => inr OtherException) false (fun _ => [])
                    (fun _ => true) (fun _ => false) (fun _ => []) append
                    false true ["a.py"] [])); [reflexivity | reflexivity | discriminate].
  - apply (proj2 (proj2 (main_stops_before_scanning
                    (fun _ => inr SyntaxError) (fun _ => inr OtherException)
                    (fun _ => inr OtherException) false (fun _ => [])
                    (fun _ => true) (fun _ => false) (fun _ => []) append
                    false false [] []))).
    reflexivity.
Defined.

